(** * Open Duck Mini: delay simulator and walk-engine control loop

    A shallow embedding of two pieces of the repository:

    - [ImuDelaySimulator] of [experiments/mujoco/onnx_AMP_mujoco.py]
      (lines 136-155), and
    - the control loop of [experiments/placo/bdx_walk.py] (lines 188-322).

    Python [float] is IEEE-754 binary64 with round-to-nearest-even, which
    is what Rocq's primitive [float] computes with, so every number of
    the scripts that is a Python float is a [float] here and every
    arithmetic operation and comparison is the primitive one.  Python
    exceptions are explicit results. *)

From Stdlib Require Import Floats Bool String ZArith Lia List.
Import ListNotations.

Set Warnings "-inexact-float,-abstract-large-number".
#[local] Open Scope float_scope.

(** Python exceptions the two scripts can raise in the modelled code. *)
Inductive exn : Type :=
| TypeError   (* arithmetic on [None] *)
| IndexError  (* [pop] from an empty list *)
| NameError.  (* read of a global that was never assigned *)

(** ** onnx_AMP_mujoco.py: [ImuDelaySimulator] *)

Module ImuDelay.

(** A rotation (quaternion, 4 numbers) or an angular velocity
    (3 numbers), as the list or array the script pushes. *)
Definition value : Type := list float.

(** The object's attributes ([__init__], lines 137-141).  [t0 = None]
    until the first [push]. *)
Record ImuDelaySimulator : Type := mk {
  delay_ms : float;
  rot      : list value;
  ang_rot  : list value;
  t0       : option float
}.

(** [ImuDelaySimulator(delay_ms)]. *)
Definition init (d : float) : ImuDelaySimulator :=
  {| delay_ms := d; rot := []; ang_rot := []; t0 := None |}.

(** [push(rot, ang_rot, t)], lines 143-147. *)
Definition push (r a : value) (tm : float) (s : ImuDelaySimulator)
  : ImuDelaySimulator :=
  {| delay_ms := delay_ms s;
     rot      := rot s ++ [r];
     ang_rot  := ang_rot s ++ [a];
     t0       := match t0 s with
                 | None => Some tm
                 | Some x => Some x
                 end |}.

(** What a method call leaves behind: a returned value or a raised
    exception, each with the object as the call left it. *)
Inductive outcome (A : Type) : Type :=
| Returned (a : A) (s : ImuDelaySimulator)
| Raised (e : exn) (s : ImuDelaySimulator).
Arguments Returned {A} a s.
Arguments Raised {A} e s.

(** The value of line 151: [[0, 0, 0, 0], [0, 0, 0]]. *)
Definition zeroed : value * value := ([0; 0; 0; 0], [0; 0; 0]).

(** The test of line 150, [time.time() - self.t0 < self.delay_ms / 1000],
    for a defined [t0]; [now] is the reading of [time.time()]. *)
Definition too_early (now first d : float) : bool := now - first <? d / 1000.

(** [get()], lines 149-155; [now] is what [time.time()] returns in the
    call.  [self.rot.pop(0)] runs before [self.ang_rot.pop(0)], so an
    [IndexError] of the second leaves the first list already popped. *)
Definition get (now : float) (s : ImuDelaySimulator)
  : outcome (value * value) :=
  match t0 s with
  | None => Raised TypeError s
  | Some first =>
      if too_early now first (delay_ms s) then Returned zeroed s
      else
        match rot s with
        | [] => Raised IndexError s
        | r :: rs =>
            let s1 := {| delay_ms := delay_ms s; rot := rs;
                         ang_rot := ang_rot s; t0 := t0 s |} in
            match ang_rot s with
            | [] => Raised IndexError s1
            | a :: az =>
                Returned (r, a)
                  {| delay_ms := delay_ms s; rot := rs;
                     ang_rot := az; t0 := t0 s |}
            end
        end
  end.

(** A sequence of [push] calls, oldest first. *)
Definition push_all (ps : list (value * value * float))
  (s : ImuDelaySimulator) : ImuDelaySimulator :=
  fold_left (fun acc p => push (fst (fst p)) (snd (fst p)) (snd p) acc) ps s.

(** A sequence of [get] calls at the clock readings [nows]; the values
    returned so far, and how the sequence ended. *)
Fixpoint drain (nows : list float) (s : ImuDelaySimulator)
  : list (value * value) * outcome unit :=
  match nows with
  | [] => ([], Returned tt s)
  | now :: rest =>
      match get now s with
      | Returned v s1 =>
          let '(vs, o) := drain rest s1 in (v :: vs, o)
      | Raised e s1 => ([], Raised e s1)
      end
  end.

(** The queued pairs, oldest first. *)
Definition queue (s : ImuDelaySimulator) : list (value * value) :=
  combine (rot s) (ang_rot s).

(** Calls of a client, and an instrumented run that records which
    pairs were pushed and which were taken out of the lists (a [get]
    that returns [zeroed] at line 151 takes nothing out). *)
Inductive call : Type :=
| Push (r a : value) (tm : float)
| Get (now : float).

Record journal : Type := mkJournal {
  pushed  : list (value * value);
  popped  : list (value * value)
}.

Definition is_too_early (now : float) (s : ImuDelaySimulator) : bool :=
  match t0 s with
  | Some first => too_early now first (delay_ms s)
  | None => false
  end.

Fixpoint exec (cs : list call) (j : journal) (s : ImuDelaySimulator)
  : journal * outcome unit :=
  match cs with
  | [] => (j, Returned tt s)
  | Push r a tm :: rest =>
      exec rest {| pushed := pushed j ++ [(r, a)]; popped := popped j |}
        (push r a tm s)
  | Get now :: rest =>
      match get now s with
      | Returned v s1 =>
          if is_too_early now s then exec rest j s1
          else exec rest {| pushed := pushed j; popped := popped j ++ [v] |} s1
      | Raised e s1 => (j, Raised e s1)
      end
  end.

(** The object an outcome carries. *)
Definition left_behind {A : Type} (o : outcome A) : ImuDelaySimulator :=
  match o with
  | Returned _ s => s
  | Raised _ s => s
  end.

(** The invariant of any client run: the two lists have one length,
    and what was pushed is what was popped followed by what is queued. *)
Definition aligned (j : journal) (s : ImuDelaySimulator) : Prop :=
  length (rot s) = length (ang_rot s)
  /\ pushed j = popped j ++ queue s.

(** Two observations a client may push. *)
Definition sample_a : value * value := ([0; 0; 0; 1], [0.5; 0; 0]).
Definition sample_b : value * value := ([1; 0; 0; 0], [0; 0.25; 0]).

End ImuDelay.

(** ** bdx_walk.py: the control loop *)

(** A Python [int] used where a float is expected (exact for the small
    counts of the script). *)
Definition to_float (n : nat) : float :=
  PrimFloat.of_uint63 (Uint63.of_Z (Z.of_nat n)).

(** Results of code that can raise. *)
Inductive result (A : Type) : Type :=
| Ok (a : A)
| Raise (e : exn).
Arguments Ok {A} a.
Arguments Raise {A} e.

Definition bind {A B : Type} (c : result A) (k : A -> result B) : result B :=
  match c with
  | Ok a => k a
  | Raise e => Raise e
  end.

Notation "x <- c ;; k" := (bind c (fun x => k))
  (at level 61, c at next level, right associativity).

(** Reading a global that is assigned only on some paths: [None] is
    "never assigned". *)
Definition read {A : Type} (x : option A) : result A :=
  match x with
  | Some v => Ok v
  | None => Raise NameError
  end.

Module Walk.

Set Implicit Arguments.

(** Lines 31-32. *)
Definition DT : float := 0.01.
Definition REFINE : nat := 10.

(** Lines 48 and 63, the two walk parameters the loop reads. *)
Definition replan_timesteps : nat := 10.
Definition single_support_duration : float := 0.2.

(** The flag the script is started with (lines 20-29, 163-186); one
    flag per run. *)
Inductive mode : Type := ArgPybullet | ArgMeshcat | ArgRobot | ArgMujoco.

(** What [repetitive_footsteps_planner.configure] was last called
    with (lines 146, 198). *)
Record planner : Type := mkPlanner {
  step_dx : float; step_dy : float; step_dtheta : float; step_count : Z
}.

(** What is read from outside in one pass of the loop:
    [bdx_mujoco_server.get_feet_contact()], a pair (right, left), and
    whether [bdx_mujoco_server.key_pressed is not None]. *)
Record sensed : Type := mkSensed {
  feet_contact : bool * bool;
  key_pressed  : bool
}.

(** The joint targets handed over in one pass: [sim.setJoints]
    (line 250), [hwi.set_position_all] (line 287) or
    [bdx_mujoco_server.send_action] (line 296). *)
Inductive sent : Type :=
| SimJoints (joints : list (string * float))
| HwiPositions (angles : list (string * float))
| MujocoAction (action : list float).

(** The keys of [angles], lines 271-285, in insertion order. *)
Definition angle_names : list string :=
  [ "right_hip_yaw"; "right_hip_roll"; "right_hip_pitch"; "right_knee";
    "right_ankle"; "left_hip_yaw"; "left_hip_roll"; "left_hip_pitch";
    "left_knee"; "left_ankle"; "neck_pitch"; "head_pitch"; "head_yaw" ]%string.

(** The sleep loop of lines 321-322 against the successive readings of
    [time.time()]: the number of [time.sleep] calls and the reading
    that ended the loop, or [None] when the readings given run out
    while the loop is still sleeping. *)
Fixpoint pace (deadline : float) (readings : list float)
  : option (nat * float) :=
  match readings with
  | [] => None
  | now :: rest =>
      if now <? deadline then
        match pace deadline rest with
        | Some (n, wall) => Some (S n, wall)
        | None => None
        end
      else Some (O, now)
  end.

Section Engine.

(** The placo objects and calls, which the script only passes around. *)
Variables Trajectory Supports WalkTasks HumanoidRobot : Type.
(** [tasks.update_tasks_from_trajectory(trajectory, t)]: new task
    targets. *)
Variable update_tasks_from_trajectory :
  Trajectory -> float -> WalkTasks -> WalkTasks.
(** [robot.update_kinematics()]. *)
Variable update_kinematics : HumanoidRobot -> HumanoidRobot.
(** [solver.solve(True)]: reads [solver.dt] and the task targets and
    integrates the solution into the robot. *)
Variable solve : float -> WalkTasks -> HumanoidRobot -> HumanoidRobot.
(** [robot.get_joint(name)]. *)
Variable get_joint : HumanoidRobot -> string -> float.
(** [parameters.dt()]. *)
Variable parameters_dt : float.
(** [walk.can_replan_supports], [walk.replan_supports], [walk.replan]. *)
Variable can_replan_supports : Trajectory -> float -> bool.
Variable replan_supports : planner -> Trajectory -> float -> Supports.
Variable replan : Supports -> Trajectory -> float -> Trajectory.
(** [sim.getJoints()] of the PyBullet simulation. *)
Variable sim_joints : list string.

(** The globals of the script that the loop reads or writes.  The two
    contact timers are assigned before the loop only under [--mujoco]
    (lines 178-179). *)
Record state : Type := mkState {
  start_t   : float;
  t         : float;
  last_replan : float;
  petage_de_gueule : bool;
  got_input : bool;
  d_x : float; d_y : float; d_theta : float; nb_steps : Z;
  repetitive_footsteps_planner : planner;
  solver_dt : float;
  tasks : WalkTasks;
  robot : HumanoidRobot;
  supports : Supports;
  trajectory : Trajectory;
  time_since_last_left_contact  : option float;
  time_since_last_right_contact : option float
}.

(** The globals when the loop is entered (lines 87, 142-146, 178-179,
    189-195), given the wall clock at line 189 and the placo objects
    built by lines 36-161. *)
Definition initial (m : mode) (start : float) (tasks0 : WalkTasks)
  (robot0 : HumanoidRobot) (supports0 : Supports)
  (trajectory0 : Trajectory) : state :=
  let timer := match m with ArgMujoco => Some 0.0 | _ => None end in
  {| start_t := start;
     t := -1.0;
     last_replan := 0;
     petage_de_gueule := false;
     got_input := false;
     d_x := 0.1; d_y := 0.0; d_theta := 0.0; nb_steps := 5;
     repetitive_footsteps_planner :=
       {| step_dx := 0.1; step_dy := 0.0; step_dtheta := 0.0;
          step_count := 5 |};
     solver_dt := DT / to_float REFINE;
     tasks := tasks0;
     robot := robot0;
     supports := supports0;
     trajectory := trajectory0;
     time_since_last_left_contact := timer;
     time_since_last_right_contact := timer |}.

(** Lines 197-199. *)
Definition configure_stage (s : state) : state :=
  if got_input s then
    {| start_t := start_t s; t := t s; last_replan := last_replan s;
       petage_de_gueule := petage_de_gueule s;
       got_input := false;
       d_x := d_x s; d_y := d_y s; d_theta := d_theta s;
       nb_steps := nb_steps s;
       repetitive_footsteps_planner :=
         {| step_dx := d_x s; step_dy := d_y s;
            step_dtheta := d_theta s; step_count := nb_steps s |};
       solver_dt := solver_dt s; tasks := tasks s; robot := robot s;
       supports := supports s; trajectory := trajectory s;
       time_since_last_left_contact := time_since_last_left_contact s;
       time_since_last_right_contact := time_since_last_right_contact s |}
  else s.

(** The time of line 205 for loop index [k]. *)
Definition sample_time (tm : float) (k : nat) : float :=
  tm - DT + to_float k * DT / to_float REFINE.

(** One pass of the [for k in range(REFINE)] body, lines 204-208. *)
Definition refine_body (frozen : bool) (dt : float) (traj : Trajectory)
  (tm : float) (w : WalkTasks * HumanoidRobot) (k : nat)
  : WalkTasks * HumanoidRobot :=
  let tasks1 :=
    if negb frozen
    then update_tasks_from_trajectory traj (sample_time tm k) (fst w)
    else fst w in
  let robot1 := update_kinematics (snd w) in
  (tasks1, solve dt tasks1 robot1).

(** Lines 202-208. *)
Definition refine_loop (frozen : bool) (dt : float) (traj : Trajectory)
  (tm : float) (w : WalkTasks * HumanoidRobot)
  : WalkTasks * HumanoidRobot :=
  fold_left (refine_body frozen dt traj tm) (seq 0 REFINE) w.

Definition refine_stage (s : state) : state :=
  let w := refine_loop (petage_de_gueule s) (solver_dt s) (trajectory s)
             (t s) (tasks s, robot s) in
  {| start_t := start_t s; t := t s; last_replan := last_replan s;
     petage_de_gueule := petage_de_gueule s; got_input := got_input s;
     d_x := d_x s; d_y := d_y s; d_theta := d_theta s;
     nb_steps := nb_steps s;
     repetitive_footsteps_planner := repetitive_footsteps_planner s;
     solver_dt := solver_dt s; tasks := fst w; robot := snd w;
     supports := supports s; trajectory := trajectory s;
     time_since_last_left_contact := time_since_last_left_contact s;
     time_since_last_right_contact := time_since_last_right_contact s |}.

(** The condition of lines 217-220. *)
Definition replan_due (s : state) : bool :=
  (to_float replan_timesteps * parameters_dt <? t s - last_replan s)
  && can_replan_supports (trajectory s) (t s).

(** Lines 217-227. *)
Definition replan_stage (s : state) : state :=
  if replan_due s then
    let supports1 :=
      replan_supports (repetitive_footsteps_planner s) (trajectory s) (t s) in
    {| start_t := start_t s; t := t s;
       last_replan := t s;
       petage_de_gueule := petage_de_gueule s; got_input := got_input s;
       d_x := d_x s; d_y := d_y s; d_theta := d_theta s;
       nb_steps := nb_steps s;
       repetitive_footsteps_planner := repetitive_footsteps_planner s;
       solver_dt := solver_dt s; tasks := tasks s; robot := robot s;
       supports := supports1;
       trajectory := replan supports1 (trajectory s) (t s);
       time_since_last_left_contact := time_since_last_left_contact s;
       time_since_last_right_contact := time_since_last_right_contact s |}
  else s.

(** The dictionary of lines 271-285. *)
Definition angles (r : HumanoidRobot) : list (string * float) :=
  map (fun j => (j, get_joint r j)) angle_names.

(** Lines 290-293: a timer is set to [0.0] when its foot touches. *)
Definition observe (contact : bool) (timer : option float) : option float :=
  if contact then Some 0.0 else timer.

(** The condition of lines 298-301; [or] does not read its right
    operand when the left one holds. *)
Definition fault_check (l r : option float) : result bool :=
  lv <- read l ;;
  if single_support_duration <? lv then Ok true
  else rv <- read r ;; Ok (single_support_duration <? rv).

(** Lines 289-317 under [--mujoco], without the send of line 296. *)
Definition contact_stage (inp : sensed) (s : state) : result state :=
  let l1 := observe (snd (feet_contact inp)) (time_since_last_left_contact s) in
  let r1 := observe (fst (feet_contact inp)) (time_since_last_right_contact s) in
  fault <- fault_check l1 r1 ;;
  lv <- read l1 ;;
  rv <- read r1 ;;
  Ok {| start_t := start_t s; t := t s; last_replan := last_replan s;
        petage_de_gueule := fault;
        got_input := true;
        d_x := if key_pressed inp then 0.05 else 0;
        d_y := if key_pressed inp then d_y s else 0;
        d_theta := if key_pressed inp then d_theta s else 0;
        nb_steps := nb_steps s;
        repetitive_footsteps_planner := repetitive_footsteps_planner s;
        solver_dt := solver_dt s; tasks := tasks s; robot := robot s;
        supports := supports s; trajectory := trajectory s;
        time_since_last_left_contact := Some (lv + DT);
        time_since_last_right_contact := Some (rv + DT) |}.

(** The joint targets handed over in one pass, from the robot as the
    solver left it (lines 249-250, 271-287, 296). *)
Definition emitted (m : mode) (r : HumanoidRobot) : option sent :=
  match m with
  | ArgPybullet =>
      Some (SimJoints (map (fun j => (j, get_joint r j)) sim_joints))
  | ArgMeshcat => None
  | ArgRobot => Some (HwiPositions (angles r))
  | ArgMujoco => Some (MujocoAction (map snd (angles r)))
  end.

(** Lines 241-317: the globals afterwards.  The PyBullet and MeshCat
    branches only drive the simulation or the viewer.  Under
    [--robot] the timers were never assigned, and
    [bdx_mujoco_server] (line 310) never is. *)
Definition actuate_stage (m : mode) (inp : sensed) (s : state)
  : result state :=
  match m with
  | ArgPybullet | ArgMeshcat => Ok s
  | ArgRobot =>
      _ <- fault_check (time_since_last_left_contact s)
             (time_since_last_right_contact s) ;;
      _ <- read (time_since_last_left_contact s) ;;
      _ <- read (time_since_last_right_contact s) ;;
      Raise NameError
  | ArgMujoco => contact_stage inp s
  end.

(** Line 319. *)
Definition advance (s : state) : state :=
  {| start_t := start_t s;
     t := t s + DT;
     last_replan := last_replan s;
     petage_de_gueule := petage_de_gueule s; got_input := got_input s;
     d_x := d_x s; d_y := d_y s; d_theta := d_theta s;
     nb_steps := nb_steps s;
     repetitive_footsteps_planner := repetitive_footsteps_planner s;
     solver_dt := solver_dt s; tasks := tasks s; robot := robot s;
     supports := supports s; trajectory := trajectory s;
     time_since_last_left_contact := time_since_last_left_contact s;
     time_since_last_right_contact := time_since_last_right_contact s |}.

(** One pass of the [while True] body up to line 319: the joint
    targets handed over, and the globals or the exception. *)
Definition tick (m : mode) (inp : sensed) (s : state)
  : option sent * result state :=
  let s3 := replan_stage (refine_stage (configure_stage s)) in
  (emitted m (robot s3), s4 <- actuate_stage m inp s3 ;; Ok (advance s4)).

(** One full pass, with the sleep loop of lines 321-322 run against
    the wall-clock [readings] of that pass. *)
Definition loop_body (m : mode) (inp : sensed) (readings : list float)
  (s : state) : option sent * result (state * option (nat * float)) :=
  let '(out, r) := tick m inp s in
  (out, s1 <- r ;; Ok (s1, pace (start_t s1 + t s1) readings)).

(** Successive passes, one per element of [inps]. *)
Fixpoint run (m : mode) (inps : list sensed) (s : state) : result state :=
  match inps with
  | [] => Ok s
  | inp :: rest => s1 <- snd (tick m inp s) ;; run m rest s1
  end.

(** *** Vocabulary of the statements below *)

(** A pass of the loop runs to line 319 when the script was not
    started with [--robot] and, under [--mujoco], both timers are
    assigned. *)
Definition completes (m : mode) (s : state) : bool :=
  match m with
  | ArgPybullet | ArgMeshcat => true
  | ArgRobot => false
  | ArgMujoco =>
      match time_since_last_left_contact s,
            time_since_last_right_contact s with
      | Some _, Some _ => true
      | _, _ => false
      end
  end.

Inductive foot : Type := LeftFoot | RightFoot.

Definition other (f : foot) : foot :=
  match f with LeftFoot => RightFoot | RightFoot => LeftFoot end.

Definition touches (f : foot) (inp : sensed) : bool :=
  match f with
  | LeftFoot => snd (feet_contact inp)
  | RightFoot => fst (feet_contact inp)
  end.

Definition timer (f : foot) (s : state) : option float :=
  match f with
  | LeftFoot => time_since_last_left_contact s
  | RightFoot => time_since_last_right_contact s
  end.

(** A timer [k] passes after it was [0.0]. *)
Fixpoint ramp (k : nat) : float :=
  match k with
  | O => 0.0
  | S k' => ramp k' + DT
  end.

(** The planning clock [k] passes after it was [start]. *)
Definition clock_after (k : nat) (start : float) : float :=
  Nat.iter k (fun x => x + DT) start.


(** Two states agree on everything but the fault flag, the command
    and the timers. *)
Definition same_plan (a b : state) : Prop :=
  start_t a = start_t b /\ t a = t b /\ last_replan a = last_replan b
  /\ solver_dt a = solver_dt b /\ tasks a = tasks b /\ robot a = robot b
  /\ supports a = supports b /\ trajectory a = trajectory b.

(** The planner configuration after lines 197-199. *)
Definition configured (s : state) : planner :=
  if got_input s
  then {| step_dx := d_x s; step_dy := d_y s; step_dtheta := d_theta s;
          step_count := nb_steps s |}
  else repetitive_footsteps_planner s.

(** Every pass of a run starts with the fault flag set and runs to
    line 319. *)
Fixpoint faulted_throughout (m : mode) (inps : list sensed) (s : state)
  : Prop :=
  match inps with
  | [] => True
  | inp :: rest =>
      petage_de_gueule s = true
      /\ match snd (tick m inp s) with
         | Ok s1 => faulted_throughout m rest s1
         | Raise _ => False
         end
  end.

(** The support phase of a trajectory at a time, as placo's
    [trajectory.support_is_both(t)] and [trajectory.support_side(t)]
    give it (the calls of the commented-out lines 212-213). *)
Inductive support_phase : Type :=
| SupportLeft | SupportRight | SupportBoth.

(** The fault rule in the words of the specification: a timer above
    [single_support_duration] counts only while the trajectory is in
    single support on that timer's side. *)
Definition spec_fault_rule (phase : support_phase) (l r : float) : bool :=
  match phase with
  | SupportLeft => single_support_duration <? l
  | SupportRight => single_support_duration <? r
  | SupportBoth => false
  end.

End Engine.

End Walk.

(** A stand-in for the placo objects in which every call leaves a mark:
    the tasks are the list of times they were updated at (newest
    first), the robot counts the [solve] calls, a trajectory is the
    list of times it was replanned at, and the supports remember the
    planner and the time they were replanned with. *)
Module Bench.

Definition Trajectory : Type := list float.
Definition Supports : Type := option (Walk.planner * float).
Definition WalkTasks : Type := list float.
Definition HumanoidRobot : Type := nat.

Definition update_tasks_from_trajectory (_ : Trajectory) (tm : float)
  (tk : WalkTasks) : WalkTasks := tm :: tk.
Definition update_kinematics (r : HumanoidRobot) : HumanoidRobot := r.
Definition solve (_ : float) (_ : WalkTasks) (r : HumanoidRobot)
  : HumanoidRobot := S r.
Definition get_joint (r : HumanoidRobot) (_ : string) : float := to_float r.
Definition parameters_dt : float := 0.02.
Definition can_replan_supports (_ : Trajectory) (_ : float) : bool := true.
Definition replan_supports (p : Walk.planner) (_ : Trajectory) (tm : float)
  : Supports := Some (p, tm).
Definition replan (_ : Supports) (tr : Trajectory) (tm : float)
  : Trajectory := tm :: tr.
Definition sim_joints : list string := ["left_knee"; "right_knee"]%string.

(** A trajectory that is in double support at every time. *)
Definition phase_at (_ : Trajectory) (_ : float) : Walk.support_phase :=
  Walk.SupportBoth.

Definition state : Type :=
  Walk.state Trajectory Supports WalkTasks HumanoidRobot.

Definition tick : Walk.mode -> Walk.sensed -> state
                  -> option Walk.sent * result state :=
  Walk.tick update_tasks_from_trajectory update_kinematics solve get_joint
    parameters_dt can_replan_supports replan_supports replan sim_joints.

Definition loop_body :=
  Walk.loop_body update_tasks_from_trajectory update_kinematics solve
    get_joint parameters_dt can_replan_supports replan_supports replan
    sim_joints.

Definition run : Walk.mode -> list Walk.sensed -> state -> result state :=
  Walk.run update_tasks_from_trajectory update_kinematics solve get_joint
    parameters_dt can_replan_supports replan_supports replan sim_joints.

(** The globals at loop entry, wall clock 100 s. *)
Definition start (m : Walk.mode) : state :=
  Walk.initial m 100 [] O None [].

(** No foot touches, no key is pressed. *)
Definition airborne : Walk.sensed :=
  {| Walk.feet_contact := (false, false); Walk.key_pressed := false |}.

(** Both feet touch. *)
Definition standing : Walk.sensed :=
  {| Walk.feet_contact := (true, true); Walk.key_pressed := false |}.

(** The globals of a run under [--mujoco] whose clock has come to read
    2^47 seconds. *)
Definition late : state :=
  {| Walk.start_t := 100;
     Walk.t := 140737488355328;
     Walk.last_replan := 140737488355327;
     Walk.petage_de_gueule := false;
     Walk.got_input := true;
     Walk.d_x := 0; Walk.d_y := 0; Walk.d_theta := 0; Walk.nb_steps := 5;
     Walk.repetitive_footsteps_planner :=
       {| Walk.step_dx := 0; Walk.step_dy := 0; Walk.step_dtheta := 0;
          Walk.step_count := 5 |};
     Walk.solver_dt := Walk.DT / to_float Walk.REFINE;
     Walk.tasks := [];
     Walk.robot := O;
     Walk.supports := None;
     Walk.trajectory := [];
     Walk.time_since_last_left_contact := Some Walk.DT;
     Walk.time_since_last_right_contact := Some Walk.DT |}.

(** The globals of a run under [--mujoco] that is in the fault state:
    both feet have been off the ground for 0.3 s. *)
Definition fallen : state :=
  {| Walk.start_t := 100;
     Walk.t := 3;
     Walk.last_replan := 2.9;
     Walk.petage_de_gueule := true;
     Walk.got_input := true;
     Walk.d_x := 0; Walk.d_y := 0; Walk.d_theta := 0; Walk.nb_steps := 5;
     Walk.repetitive_footsteps_planner :=
       {| Walk.step_dx := 0; Walk.step_dy := 0; Walk.step_dtheta := 0;
          Walk.step_count := 5 |};
     Walk.solver_dt := Walk.DT / to_float Walk.REFINE;
     Walk.tasks := [2.5];
     Walk.robot := 3000%nat;
     Walk.supports := None;
     Walk.trajectory := [2.9];
     Walk.time_since_last_left_contact := Some 0.3;
     Walk.time_since_last_right_contact := Some 0.3 |}.

End Bench.

(** Contact histories of the control loop, counted in passes. *)
Module Gait.
Import Walk.

(** The number of [DT] additions a foot's timer holds after the passes
    [inps], when it held [c] before them: a pass in which the foot
    touches starts the count again (lines 290-293, 307-308). *)
Fixpoint airtime (f : foot) (c : nat) (inps : list sensed) : nat :=
  match inps with
  | [] => c
  | inp :: rest => airtime f (S (if touches f inp then 0 else c)) rest
  end.

(** The count the test of lines 298-301 sees in the pass [last] that
    follows the passes [inps]. *)
Definition checked (f : foot) (c : nat) (inps : list sensed) (last : sensed)
  : nat :=
  if touches f last then 0%nat else airtime f c inps.

(** Whether, for each of the counts [j .. j + n], a timer holding that
    many additions (the float [v] for [j]) is above
    [single_support_duration] exactly from 20 additions on. *)
Fixpoint ramp_agrees (n j : nat) (v : float) : bool :=
  if Bool.eqb (single_support_duration <? v) (20 <=? j)%nat then
    match n with
    | O => true
    | S n' => ramp_agrees n' (S j) (v + DT)
    end
  else false.

(** The step command of the script as one value
    ([d_x], [d_y], [d_theta], [nb_steps]). *)
Definition command {Trajectory Supports WalkTasks HumanoidRobot : Type}
  (s : state Trajectory Supports WalkTasks HumanoidRobot) : planner :=
  {| step_dx := d_x s; step_dy := d_y s; step_dtheta := d_theta s;
     step_count := nb_steps s |}.

(** The command lines 310-317 leave after a pass under [--mujoco]. *)
Definition keyed (pressed : bool) : planner :=
  {| step_dx := if pressed then 0.05 else 0; step_dy := 0; step_dtheta := 0;
     step_count := 5 |}.

End Gait.

(** ** onnx_AMP_mujoco.py: [get_obs] and the control loop *)

Module Amp.
Import ImuDelay.

(** The use [get_obs] makes of the simulator (lines 184-185): a [push]
    with one reading of [time.time()], then a [get] with the next. *)
Definition push_get (r a : value) (tpush tget : float)
  (s : ImuDelaySimulator) : outcome (value * value) :=
  get tget (push r a tpush s).

(** A sequence of such uses, oldest first: the pairs returned, and how
    the sequence ended. *)
Fixpoint feed (uses : list (value * value * (float * float)))
  (s : ImuDelaySimulator) : list (value * value) * outcome unit :=
  match uses with
  | [] => ([], Returned tt s)
  | (r, a, (tpush, tget)) :: rest =>
      match push_get r a tpush tget s with
      | Returned v s1 => let '(vs, o) := feed rest s1 in (v :: vs, o)
      | Raised e s1 => ([], Raised e s1)
      end
  end.

(** How many of the uses find the gate of line 150 closed, for a
    simulator whose first timestamp is [first]. *)
Definition withheld (d first : float)
  (uses : list (value * value * (float * float))) : nat :=
  length (filter (fun u => too_early (snd (snd u)) first d) uses).

(** The pairs the uses push, and among the pairs [outs] they got back
    the ones that came through an open gate. *)
Definition pushed_pairs (uses : list (value * value * (float * float)))
  : list (value * value) := map fst uses.

Definition let_through (d first : float)
  (uses : list (value * value * (float * float)))
  (outs : list (value * value)) : list (value * value) :=
  map snd
    (filter (fun uo => negb (too_early (snd (snd (fst uo))) first d))
       (combine uses outs)).

(** A simulator given by its queue. *)
Definition holding (d first : float) (q : list (value * value))
  : ImuDelaySimulator :=
  mk d (map fst q) (map snd q) (Some first).

(** What any sequence of calls keeps true of the simulator: the two
    lists have one length, and they are empty as long as [t0] is
    [None]. *)
Definition sound (s : ImuDelaySimulator) : Prop :=
  length (rot s) = length (ang_rot s)
  /\ (t0 s = None -> rot s = []).

(** Lines 203, 209, 35-36. *)
Definition commands : list float := [0.15; 0.0; 0.0].
Definition control_freq : nat := 60.
Definition action_clip : float * float := (-1, 1).
Definition obs_clip : float * float := (-5, 5).

(** The test of line 233. *)
Definition control_due (tm last : float) : bool :=
  1 / to_float control_freq <=? tm - last.

(** [--saved_obs] and [--saved_actions]: the unpickled lists when the
    option is given (lines 23-26). *)
Record replay : Type := mkReplay {
  saved_obs     : option (list (list float));
  saved_actions : option (list (list (list float)))
}.

Set Implicit Arguments.

Section Script.

(** MuJoCo's [data] and what the script reads from it and does to it. *)
Variable MjData : Type.
(** [data.time]. *)
Variable data_time : MjData -> float.
(** Lines 163-173: the base quaternion without yaw and the scaled
    angular velocity. *)
Variable imu_reading : MjData -> value * value.
(** Lines 175-182. *)
Variable isaac_dof_pos_scaled : MjData -> list float.
Variable isaac_dof_vel_scaled : MjData -> list float.
(** [mujoco.mj_step(model, data, 50)]. *)
Variable mj_step : MjData -> MjData.
(** [data.ctrl[:] = ...], [data.ctrl.copy()], [data.qpos[7:].copy()]. *)
Variable set_ctrl : list float -> MjData -> MjData.
Variable ctrl : MjData -> list float.
Variable qpos_joints : MjData -> list float.
(** [policy.infer], [np.clip], array [+], [isaac_init_pos],
    [isaac_to_mujoco]. *)
Variable policy_infer : list float -> list float.
Variable np_clip : float * float -> list float -> list float.
Variable np_add : list float -> list float -> list float.
Variable isaac_init_pos : list float.
Variable isaac_to_mujoco : list float -> list float.

(** [get_obs], lines 158-199; [tpush] and [tget] are the readings of
    [time.time()] at line 184 and inside [get]. *)
Definition get_obs (data : MjData) (isaac_action cmds : list float)
  (tpush tget : float) (sim : ImuDelaySimulator) : outcome (list float) :=
  let '(base_quat, base_ang_vel) := imu_reading data in
  match push_get base_quat base_ang_vel tpush tget sim with
  | Returned (quat, ang_vel) sim1 =>
      Returned
        (quat ++ ang_vel ++ isaac_dof_pos_scaled data
         ++ isaac_dof_vel_scaled data ++ isaac_action ++ cmds)
        sim1
  | Raised e sim1 => Raised e sim1
  end.

(** The globals of the script that the loop of lines 230-270 uses. *)
Record loop : Type := mkLoop {
  data : MjData;
  prev_isaac_action : list float;
  prev : float;
  last_control : float;
  i : nat;
  imu_delay_simulator : ImuDelaySimulator;
  mujoco_saved_obs : list (list float);
  mujoco_saved_actions : list (list float);
  command_value : list (list float * list float)
}.

(** The globals when the loop is entered (lines 202-229), given
    [data] as lines 128-129 and 221-222 left it. *)
Definition entry (data0 : MjData) : loop :=
  {| data := data0;
     prev_isaac_action := repeat 0 15;
     prev := data_time data0;
     last_control := data_time data0;
     i := 0;
     imu_delay_simulator := init 1;
     mujoco_saved_obs := [];
     mujoco_saved_actions := [];
     command_value := [] |}.

(** A pass of the loop goes on, or dies of an exception other than
    [KeyboardInterrupt] with the globals as they then are. *)
Inductive ended : Type :=
| Running (s : loop)
| Crashed (e : exn) (s : loop).

(** [seq[k]] for a list and [k >= 0]. *)
Definition item {A : Type} (l : list A) (k : nat) : result A :=
  match nth_error l k with
  | Some x => Ok x
  | None => Raise IndexError
  end.

(** Lines 234-266, the body of the [if]; [tm] is [t]. *)
Definition control (opts : replay) (tpush tget tm : float) (s : loop)
  : ended :=
  match get_obs (data s) (prev_isaac_action s) commands tpush tget
          (imu_delay_simulator s) with
  | Raised e sim1 =>
      Crashed e
        {| data := data s; prev_isaac_action := prev_isaac_action s;
           prev := prev s; last_control := last_control s; i := i s;
           imu_delay_simulator := sim1;
           mujoco_saved_obs := mujoco_saved_obs s;
           mujoco_saved_actions := mujoco_saved_actions s;
           command_value := command_value s |}
  | Returned isaac_obs sim1 =>
      let s1 :=
        {| data := data s; prev_isaac_action := prev_isaac_action s;
           prev := prev s; last_control := last_control s; i := i s;
           imu_delay_simulator := sim1;
           mujoco_saved_obs := mujoco_saved_obs s ++ [isaac_obs];
           mujoco_saved_actions := mujoco_saved_actions s;
           command_value := command_value s |} in
      match (match saved_obs opts with
             | Some l => item l (i s)
             | None => Ok isaac_obs
             end) with
      | Raise e => Crashed e s1
      | Ok obs1 =>
          let inferred := policy_infer (np_clip obs_clip obs1) in
          match (match saved_actions opts with
                 | Some l => row <- item l (i s) ;; item row 0
                 | None => Ok inferred
                 end) with
          | Raise e => Crashed e s1
          | Ok action1 =>
              let clipped := np_clip action_clip action1 in
              let mujoco_action :=
                isaac_to_mujoco (np_add isaac_init_pos clipped) in
              let data1 := set_ctrl mujoco_action (data s) in
              Running
                {| data := data1;
                   prev_isaac_action := clipped;
                   prev := prev s;
                   last_control := tm;
                   i := S (i s);
                   imu_delay_simulator := sim1;
                   mujoco_saved_obs := mujoco_saved_obs s ++ [isaac_obs];
                   mujoco_saved_actions :=
                     mujoco_saved_actions s ++ [mujoco_action];
                   command_value :=
                     command_value s ++ [(ctrl data1, qpos_joints data1)] |}
          end
      end
  end.

(** Lines 267-270. *)
Definition step_physics (tm : float) (s : loop) : loop :=
  {| data := mj_step (data s); prev_isaac_action := prev_isaac_action s;
     prev := tm; last_control := last_control s; i := i s;
     imu_delay_simulator := imu_delay_simulator s;
     mujoco_saved_obs := mujoco_saved_obs s;
     mujoco_saved_actions := mujoco_saved_actions s;
     command_value := command_value s |}.

(** One pass of the [while True] body, lines 231-270; [readings] are
    the two readings of [time.time()] a control step takes. *)
Definition pass (opts : replay) (readings : float * float) (s : loop)
  : ended :=
  let tm := data_time (data s) in
  if control_due tm (last_control s) then
    match control opts (fst readings) (snd readings) tm s with
    | Running s1 => Running (step_physics tm s1)
    | Crashed e s1 => Crashed e s1
    end
  else Running (step_physics tm s).

(** Successive passes, one per element of [rs]. *)
Fixpoint passes (opts : replay) (rs : list (float * float)) (s : loop)
  : ended :=
  match rs with
  | [] => Running s
  | r :: rest =>
      match pass opts r s with
      | Running s1 => passes opts rest s1
      | Crashed e s1 => Crashed e s1
      end
  end.

(** The three logs have one entry per control step done, and the two
    lists of the simulator have one length. *)
Definition in_step (s : loop) : Prop :=
  length (mujoco_saved_obs s) = i s
  /\ length (mujoco_saved_actions s) = i s
  /\ length (command_value s) = i s
  /\ length (rot (imu_delay_simulator s))
     = length (ang_rot (imu_delay_simulator s)).

(** The replay lists have no usable entry for control step [k]. *)
Definition exhausted (opts : replay) (k : nat) : Prop :=
  (exists l, saved_obs opts = Some l /\ length l <= k)
  \/ (exists l, saved_actions opts = Some l
                /\ (nth_error l k = None \/ nth_error l k = Some [])).

End Script.

End Amp.

(** A stand-in for MuJoCo and the policy: the data are the number of
    [mj_step] calls (each 50 steps of 0.0001 s) and the controls last
    set; the policy answers with its input cut to 15 entries. *)
Module AmpBench.

Definition MjData : Type := nat * list float.
Definition data_time (d : MjData) : float := to_float (fst d) * 0.005.
Definition imu_reading (_ : MjData) : ImuDelay.value * ImuDelay.value :=
  ImuDelay.sample_a.
Definition isaac_dof_pos_scaled (d : MjData) : list float := snd d.
Definition isaac_dof_vel_scaled (_ : MjData) : list float := repeat 0 15.
Definition mj_step (d : MjData) : MjData := (S (fst d), snd d).
Definition set_ctrl (c : list float) (d : MjData) : MjData := (fst d, c).
Definition ctrl (d : MjData) : list float := snd d.
Definition qpos_joints (d : MjData) : list float := snd d.
Definition policy_infer (obs : list float) : list float := firstn 15 obs.
Definition np_clip (_ : float * float) (x : list float) : list float := x.
Definition np_add (_ x : list float) : list float := x.
Definition isaac_init_pos : list float := repeat 0 15.
Definition isaac_to_mujoco (x : list float) : list float := x.

Definition passes :=
  Amp.passes data_time imu_reading isaac_dof_pos_scaled isaac_dof_vel_scaled
    mj_step set_ctrl ctrl qpos_joints policy_infer np_clip np_add
    isaac_init_pos isaac_to_mujoco.

Definition entry : Amp.loop MjData :=
  Amp.entry data_time (O, repeat 0 15).

(** No replay, and a replay of one recorded observation. *)
Definition live : Amp.replay :=
  {| Amp.saved_obs := None; Amp.saved_actions := None |}.
Definition one_obs : Amp.replay :=
  {| Amp.saved_obs := Some [repeat 0 55]; Amp.saved_actions := None |}.

End AmpBench.

(** ** RL/new/env.py and RL/new/footsteps_env.py: pieces of [BDXEnv] *)

Module Env.

(** [self.joint_history_length] (env.py line 138). *)
Definition joint_history_length : nat := 3.

(** [self.joint_history_length * [15 * [0]]] (lines 140, 334). *)
Definition fresh_history : list (list float) :=
  repeat (repeat 0 15) joint_history_length.

(** [l[-n:]] for [n > 0]: the last [n] items, or all of them. *)
Definition last_items {A : Type} (n : nat) (l : list A) : list A :=
  skipn (length l - n) l.

(** Lines 376-377 of [_get_obs]: the controls are appended to the
    history, which is then cut to its last [joint_history_length]
    items. *)
Definition record_ctrl (history : list (list float)) (ctrl : list float)
  : list (list float) :=
  last_items joint_history_length (history ++ [ctrl]).

(** [history[k]], as [smoothness_reward] and [action_LFP] read it. *)
Definition entry (history : list (list float)) (k : nat)
  : result (list float) :=
  match nth_error history k with
  | Some x => Ok x
  | None => Raise IndexError
  end.

(** What [step] keeps between calls for its start-up gate:
    [self.prev_t] and [self.startup_cooldown]. *)
Record gate : Type := mkGate {
  prev_t : float;
  startup_cooldown : float
}.

(** The gate of [step] (env.py lines 289-294 and 321, footsteps_env.py
    lines 266-271 and 319); [tm] is [self.data.time].  The result tells
    whether the action is used ([True]) or the initial pose is held and
    the reward is 0. *)
Definition step_gate (tm : float) (g : gate) : bool * gate :=
  let dt := tm - prev_t g in
  let cooldown1 :=
    if 0 <? startup_cooldown g then startup_cooldown g - dt
    else startup_cooldown g in
  (negb (0 <? cooldown1), {| prev_t := tm; startup_cooldown := cooldown1 |}).

(** Successive steps at the times [tms]: which of them used the action. *)
Fixpoint step_gates (tms : list float) (g : gate) : list bool * gate :=
  match tms with
  | [] => ([], g)
  | tm :: rest =>
      let '(used, g1) := step_gate tm g in
      let '(useds, g2) := step_gates rest g1 in
      (used :: useds, g2)
  end.

(** [check_contact] (env.py lines 174-190), given the ids of the two
    bodies, [self.model.geom_bodyid] and the first [ncon] contacts as
    pairs ([geom1], [geom2]). *)
Fixpoint check_contact (geom_bodyid : nat -> Z) (contacts : list (nat * nat))
  (body1_id body2_id : Z) : bool :=
  match contacts with
  | [] => false
  | contact :: rest =>
      if ((geom_bodyid (fst contact) =? body1_id)%Z
          && (geom_bodyid (snd contact) =? body2_id)%Z)
         || ((geom_bodyid (fst contact) =? body2_id)%Z
             && (geom_bodyid (snd contact) =? body1_id)%Z)
      then true
      else check_contact geom_bodyid rest body1_id body2_id
  end.

(** Python's [min(2, x)]: [x] replaces 2 only when [x < 2]. *)
Definition min_2 (x : float) : float := if x <? 2 then x else 2.

(** [action_reward] (footsteps_env.py lines 251-257), given [np.exp]
    and the sum [np.sum(self.prev_action - current_action)]. *)
Definition action_reward (np_exp : float -> float) (sum_diff : float)
  (nb_dofs : float) : float :=
  min_2 (np_exp (-5 * sum_diff / nb_dofs)).

End Env.

(** ** RL/new/eval.py: choosing the model to load *)

Module Eval.

#[local] Open Scope string_scope.

(** Whether the character occurs in the string. *)
Fixpoint occurs (c : Ascii.ascii) (s : string) : bool :=
  match s with
  | EmptyString => false
  | String a rest => if Ascii.eqb a c then true else occurs c rest
  end.

(** [s.split(c)[-1]]: what follows the last [c], or all of [s]. *)
Fixpoint after_last (c : Ascii.ascii) (s : string) : string :=
  match s with
  | EmptyString => EmptyString
  | String a rest =>
      if occurs c rest then after_last c rest
      else if Ascii.eqb a c then rest
      else String a rest
  end.

(** [s[:-n]] for [n > 0]. *)
Definition drop_last (n : nat) (s : string) : string :=
  substring 0 (String.length s - n) s.

(** The characters [/] and [_]. *)
Definition slash : Ascii.ascii := Ascii.ascii_of_nat 47.
Definition underscore : Ascii.ascii := Ascii.ascii_of_nat 95.

(** Line 61: [model_path.split("/")[-1][: -len(".zip")].split("_")[-1]]. *)
Definition model_id_text (model_path : string) : string :=
  after_last underscore
    (drop_last (String.length ".zip") (after_last slash model_path)).

Section Choice.

(** Python's [int] on a string: [None] stands for [ValueError]. *)
Variable py_int : string -> option Z.

(** The loop of lines 60-64, from the values of [latest_model_id] and
    [latest_model_path] so far; [None] when [int] raises. *)
Fixpoint scan (models_paths : list string) (latest_model_id : Z)
  (latest_model_path : option string) : option (Z * option string) :=
  match models_paths with
  | [] => Some (latest_model_id, latest_model_path)
  | model_path :: rest =>
      match py_int (model_id_text model_path) with
      | None => None
      | Some k =>
          if (latest_model_id <? k)%Z then scan rest k (Some model_path)
          else scan rest latest_model_id latest_model_path
      end
  end.

(** Lines 57-70: what [test] goes on with, for a path that does not
    end in [.zip] and the paths [glob] found. *)
Inductive choice : Type :=
| ValueError              (* [int] raised *)
| NoModelsFound           (* line 67: printed, and [test] returns *)
| Latest (model_path : string).

Definition latest_model (models_paths : list string) : choice :=
  match scan models_paths 0 None with
  | None => ValueError
  | Some (_, None) => NoModelsFound
  | Some (_, Some model_path) => Latest model_path
  end.

End Choice.

End Eval.

(** ** LeRobot/record_episodes_hdf5.py: [xbox_input] *)

Module Recorder.

(** What [xbox.read()] returns, by key. *)
Record inputs : Type := mkInputs {
  l_x : float; l_y : float; r_x : float; r_y : float;
  l_trigger : float; r_trigger : float;
  start : bool
}.

(** The globals [xbox_input] reads and writes (lines 104-114, 118).
    [start_button_timeout] and [target_velocity] are assigned nowhere
    but in [xbox_input]. *)
Record globals : Type := mkGlobals {
  max_target_step_size_x : float;
  max_target_step_size_y : float;
  max_target_yaw : float;
  target_step_size_x : float;
  target_step_size_y : float;
  target_yaw : float;
  target_head_pitch : float;
  target_head_yaw : float;
  target_head_z_offset : float;
  walking : bool;
  start_button_timeout : option float;
  target_velocity : option (list float)
}.

Section Script.

(** [np.deg2rad]. *)
Variable deg2rad : float -> float.

(** Lines 104-113. *)
Definition at_start : globals :=
  {| max_target_step_size_x := 0.03;
     max_target_step_size_y := 0.03;
     max_target_yaw := deg2rad 15;
     target_step_size_x := 0;
     target_step_size_y := 0;
     target_yaw := 0;
     target_head_pitch := 0;
     target_head_yaw := 0;
     target_head_z_offset := 0;
     walking := true;
     start_button_timeout := None;
     target_velocity := None |}.

(** [xbox_input], lines 117-133; [now] and [later] are the readings
    of [time.time()] at lines 129 and 131 when they are taken. *)
Definition xbox_input (inp : inputs) (now later : float) (g : globals)
  : result globals :=
  let head := 0.5 <? l_trigger inp in
  let g1 :=
    {| max_target_step_size_x := max_target_step_size_x g;
       max_target_step_size_y := max_target_step_size_y g;
       max_target_yaw := max_target_yaw g;
       target_step_size_x := - l_y inp * max_target_step_size_x g;
       target_step_size_y := l_x inp * max_target_step_size_y g;
       target_yaw :=
         if head then target_yaw g else - r_x inp * max_target_yaw g;
       target_head_pitch :=
         if head then r_y inp * deg2rad 45 else target_head_pitch g;
       target_head_yaw :=
         if head then - r_x inp * deg2rad 120 else target_head_yaw g;
       target_head_z_offset :=
         if head then r_trigger inp * 0.08 else target_head_z_offset g;
       walking := walking g;
       start_button_timeout := start_button_timeout g;
       target_velocity := target_velocity g |} in
  toggled <-
    (if start inp then
       timeout <- read (start_button_timeout g) ;;
       Ok (0.5 <? now - timeout)
     else Ok false) ;;
  Ok {| max_target_step_size_x := max_target_step_size_x g1;
        max_target_step_size_y := max_target_step_size_y g1;
        max_target_yaw := max_target_yaw g1;
        target_step_size_x := target_step_size_x g1;
        target_step_size_y := target_step_size_y g1;
        target_yaw := target_yaw g1;
        target_head_pitch := target_head_pitch g1;
        target_head_yaw := target_head_yaw g1;
        target_head_z_offset := target_head_z_offset g1;
        walking := if toggled then negb (walking g1) else walking g1;
        start_button_timeout :=
          if toggled then Some later else start_button_timeout g1;
        target_velocity := Some [- l_y inp; l_x inp; - r_x inp] |}.

(** The calls the loop of lines 167-169 makes, one per pass, with the
    controller state and the clock of each. *)
Fixpoint polls (reads : list (inputs * (float * float))) (g : globals)
  : result globals :=
  match reads with
  | [] => Ok g
  | (inp, (now, later)) :: rest =>
      g1 <- xbox_input inp now later g ;; polls rest g1
  end.

End Script.

(** A stick pushed forward with the start button up, and the same with
    the button down. *)
Definition stick (pressed : bool) : inputs :=
  {| l_x := 0; l_y := -1; r_x := 0; r_y := 0; l_trigger := 0;
     r_trigger := 0; start := pressed |}.

End Recorder.

(** * Properties of [ImuDelaySimulator] *)

Module DelayProps.
Import ImuDelay.

Lemma push_all_fields ps : forall s,
  delay_ms (push_all ps s) = delay_ms s
  /\ rot (push_all ps s) = rot s ++ map (fun p => fst (fst p)) ps
  /\ ang_rot (push_all ps s) = ang_rot s ++ map (fun p => snd (fst p)) ps
  /\ t0 (push_all ps s)
     = match t0 s with
       | Some x => Some x
       | None => option_map snd (hd_error ps)
       end.
Proof.
  induction ps as [|p ps IH]; intros s; cbn.
  - rewrite !app_nil_r. destruct (t0 s); auto.
  - destruct (IH (push (fst (fst p)) (snd (fst p)) (snd p) s))
      as (Hd & Hr & Ha & Ht).
    change (fold_left _ ps ?x) with (push_all ps x).
    rewrite Hd, Hr, Ha, Ht; cbn.
    rewrite <- !app_assoc; cbn.
    destruct (t0 s); auto.
Qed.

Lemma sim_eta s : s = mk (delay_ms s) (rot s) (ang_rot s) (t0 s).
Proof. destruct s; reflexivity. Qed.

(** A fresh simulator after the pushes [ps], oldest first. *)
Lemma push_all_init d p ps :
  push_all (p :: ps) (init d)
  = mk d (map (fun q => fst (fst q)) (p :: ps))
         (map (fun q => snd (fst q)) (p :: ps)) (Some (snd p)).
Proof.
  rewrite (sim_eta (push_all _ _)).
  destruct (push_all_fields (p :: ps) (init d)) as (Hd & Hr & Ha & Ht).
  rewrite Hd, Hr, Ha, Ht. reflexivity.
Qed.

(** With the gate open at every reading, as many [get] calls as there
    are queued pairs return them oldest first and empty the lists. *)
Lemma drain_open d first : forall rs az nows,
  length rs = length nows -> length az = length nows ->
  Forall (fun now => too_early now first d = false) nows ->
  drain nows (mk d rs az (Some first))
  = (combine rs az, Returned tt (mk d [] [] (Some first))).
Proof.
  induction rs as [|r rs IH]; intros az nows Hr Ha Hopen.
  - destruct nows; [|discriminate]. destruct az; [|discriminate]. reflexivity.
  - destruct nows as [|now nows]; [discriminate|].
    destruct az as [|a az]; [discriminate|].
    inversion Hopen as [|? ? Hnow Hrest]; subst.
    cbn [drain]. unfold get; cbn [t0 delay_ms rot ang_rot]. rewrite Hnow.
    rewrite (IH az nows); cbn in *; auto; lia.
Qed.

Lemma combine_fst_snd {A B C : Type} (f : C -> A) (g : C -> B) (l : list C) :
  combine (map f l) (map g l) = map (fun x => (f x, g x)) l.
Proof. induction l; cbn; congruence. Qed.

Lemma aligned_push j s r a tm :
  aligned j s ->
  aligned {| pushed := pushed j ++ [(r, a)]; popped := popped j |}
    (push r a tm s).
Proof.
  intros [Hlen Hq]; split; cbn.
  - rewrite !length_app, Hlen. reflexivity.
  - unfold queue in *; cbn. rewrite Hq, <- app_assoc. f_equal.
    clear Hq. revert Hlen. generalize (ang_rot s).
    induction (rot s) as [|x xs IH]; intros [|y ys] Hlen;
      try discriminate; cbn; [reflexivity|].
    f_equal. apply IH. cbn in Hlen. lia.
Qed.

Lemma exec_aligned cs : forall j s,
  aligned j s ->
  aligned (fst (exec cs j s)) (left_behind (snd (exec cs j s))).
Proof.
  induction cs as [|c cs IH]; intros j s Hal; [exact Hal|].
  destruct c as [r a tm|now]; cbn [exec].
  - apply IH, aligned_push, Hal.
  - unfold get, is_too_early.
    destruct (t0 s) as [first|] eqn:Ht; [|exact Hal].
    destruct (too_early now first (delay_ms s)) eqn:Hgate; [apply IH, Hal|].
    destruct (rot s) as [|r rs] eqn:Hrot; [exact Hal|].
    destruct Hal as [Hlen Hq]. unfold queue in Hq. rewrite Hrot in Hlen, Hq.
    destruct (ang_rot s) as [|a az] eqn:Hang; [discriminate|].
    apply IH. split; cbn.
    + cbn in Hlen. lia.
    + unfold queue; cbn. rewrite Hq, <- app_assoc. reflexivity.
Qed.

(** The two branches of [get] once [t0] is set. *)
Lemma get_fifo_contract_aux :
  (forall d rs az first now,
      too_early now first d = true ->
      get now (mk d rs az (Some first))
      = Returned zeroed (mk d rs az (Some first)))
  /\ (forall d r rs a az first now,
        too_early now first d = false ->
        get now (mk d (r :: rs) (a :: az) (Some first))
        = Returned (r, a) (mk d rs az (Some first))).
Proof.
  split.
  - intros d rs az first now H. unfold get; cbn [t0 delay_ms]. rewrite H.
    reflexivity.
  - intros d r rs a az first now H. unfold get; cbn [t0 delay_ms rot ang_rot].
    rewrite H. reflexivity.
Qed.

Lemma sample_b_not_zeroed : sample_b <> zeroed.
Proof.
  intro H.
  apply (f_equal (fun v => match fst v with
                           | x :: _ => PrimFloat.eqb x 0
                           | [] => true
                           end)) in H.
  vm_compute in H. discriminate.
Qed.

(** With the gate open and nothing queued, [self.rot.pop(0)] raises. *)
Lemma get_empty_raises (d first now : float) :
  too_early now first d = false ->
  get now (mk d [] [] (Some first)) = Raised IndexError (mk d [] [] (Some first)).
Proof.
  intros H. unfold get; cbn [t0 delay_ms rot]. rewrite H. reflexivity.
Qed.

(** C10.  [get()] before any [push()]: [t0] is still [None], the
    subtraction of line 150 raises [TypeError], and the call returns
    nothing, neither the zeroed pair nor a queued one, whatever the
    lists hold; after a [push], [t0] is set. *)
Theorem get_before_push_raises :
  forall (d now : float),
    get now (init d) = Raised TypeError (init d)
    /\ (forall rs az,
          get now (mk d rs az None) = Raised TypeError (mk d rs az None))
    /\ (forall v s, get now (init d) <> Returned v s)
    /\ (forall r a tm s, t0 (push r a tm s) <> None).
Proof.
  intros d now. repeat split; try reflexivity.
  - intros v s H. discriminate H.
  - intros r a tm s. cbn. destruct (t0 s); discriminate.
Qed.

Lemma get_before_push_raises_witness :
  get 0 (init 1) = Raised TypeError (init 1).
Proof. exact (proj1 (get_before_push_raises 1 0)). Defined.

(** C6.  Once [t0] is set: while [time.time() - t0 < delay_ms / 1000],
    [get()] returns the zeroed pair and changes nothing; otherwise it
    removes and returns the oldest queued pair.  [t0] is the timestamp
    of the first [push].  Over any sequence of calls on a fresh
    simulator, the pairs taken out, followed by the pairs still
    queued, are the pairs pushed, in push order. *)
Theorem get_fifo_contract :
  (forall d rs az first now,
      too_early now first d = true ->
      get now (mk d rs az (Some first))
      = Returned zeroed (mk d rs az (Some first)))
  /\ (forall d r rs a az first now,
        too_early now first d = false ->
        get now (mk d (r :: rs) (a :: az) (Some first))
        = Returned (r, a) (mk d rs az (Some first)))
  /\ (forall d p ps, t0 (push_all (p :: ps) (init d)) = Some (snd p))
  /\ (forall d cs,
        let done := exec cs (mkJournal [] []) (init d) in
        pushed (fst done)
        = popped (fst done) ++ queue (left_behind (snd done))).
Proof.
  split; [|split; [|split]].
  - exact (proj1 get_fifo_contract_aux).
  - exact (proj2 get_fifo_contract_aux).
  - intros d p ps. rewrite push_all_init. reflexivity.
  - intros d cs done. apply exec_aligned. split; reflexivity.
Qed.

Lemma get_fifo_contract_witness :
  get 0.0005 (mk 1 [fst sample_a] [snd sample_a] (Some 0))
  = Returned zeroed (mk 1 [fst sample_a] [snd sample_a] (Some 0))
  /\ get 0.5 (mk 1 [fst sample_a] [snd sample_a] (Some 0))
     = Returned sample_a (mk 1 [] [] (Some 0)).
Proof.
  split.
  - apply (proj1 get_fifo_contract). reflexivity.
  - apply (proj1 (proj2 get_fifo_contract)). reflexivity.
Defined.

(** C1 as stated fails on its second half.  Two pairs are pushed at
    timestamps 0 and 10 with [delay_ms = 1]; two [get()] calls at
    clock reading 10 return both pairs, the second one although no
    time at all has passed since its own timestamp. *)
Lemma second_value_not_withheld :
  too_early 10 10 1 = true
  /\ drain [10; 10]
       (push_all [(fst sample_a, snd sample_a, 0);
                  (fst sample_b, snd sample_b, 10)] (init 1))
     = ([sample_a; sample_b], Returned tt (mk 1 [] [] (Some 0)))
  /\ sample_b <> zeroed.
Proof.
  split; [reflexivity|]. split; [reflexivity|]. exact sample_b_not_zeroed.
Qed.

(** C1, amended.  After the pushes [p :: ps] on a fresh simulator (at
    any timestamps, increasing or not), every [get()] made while less
    than [delay_ms] has elapsed since the timestamp of the first push
    returns the zeroed pair and leaves the simulator as it was; and as
    many [get()] calls as there were pushes, made once that delay has
    elapsed, return exactly the pushed pairs in push order and leave
    both lists empty. *)
Theorem delay_round_trip :
  forall d p ps,
    (forall now,
        too_early now (snd p) d = true ->
        get now (push_all (p :: ps) (init d))
        = Returned zeroed (push_all (p :: ps) (init d)))
    /\ (forall nows,
          length nows = length (p :: ps) ->
          Forall (fun now => too_early now (snd p) d = false) nows ->
          drain nows (push_all (p :: ps) (init d))
          = (map fst (p :: ps), Returned tt (mk d [] [] (Some (snd p))))).
Proof.
  intros d p ps. rewrite push_all_init. split.
  - intros now H. apply (proj1 get_fifo_contract_aux), H.
  - intros nows Hlen Hopen.
    rewrite (drain_open d (snd p)); rewrite ?length_map; auto.
    rewrite combine_fst_snd. f_equal.
    apply map_ext. intros [[r a] tm]. reflexivity.
Qed.

Lemma delay_round_trip_witness :
  get 0.0005 (push_all [(fst sample_a, snd sample_a, 0);
                        (fst sample_b, snd sample_b, 10)] (init 1))
  = Returned zeroed
      (push_all [(fst sample_a, snd sample_a, 0);
                 (fst sample_b, snd sample_b, 10)] (init 1))
  /\ drain [10; 11]
       (push_all [(fst sample_a, snd sample_a, 0);
                  (fst sample_b, snd sample_b, 10)] (init 1))
     = ([sample_a; sample_b], Returned tt (mk 1 [] [] (Some 0))).
Proof.
  split.
  - apply (proj1 (delay_round_trip 1 (fst sample_a, snd sample_a, 0)
                    [(fst sample_b, snd sample_b, 10)])).
    reflexivity.
  - apply (proj2 (delay_round_trip 1 (fst sample_a, snd sample_a, 0)
                    [(fst sample_b, snd sample_b, 10)])).
    + reflexivity.
    + repeat constructor.
Defined.

End DelayProps.

(** * Properties of the control loop *)

Module WalkProps.
Import Walk.

Section Facts.

Context {Trajectory Supports WalkTasks HumanoidRobot : Type}.
Variable update_tasks_from_trajectory :
  Trajectory -> float -> WalkTasks -> WalkTasks.
Variable update_kinematics : HumanoidRobot -> HumanoidRobot.
Variable solve : float -> WalkTasks -> HumanoidRobot -> HumanoidRobot.
Variable get_joint : HumanoidRobot -> string -> float.
Variable parameters_dt : float.
Variable can_replan_supports : Trajectory -> float -> bool.
Variable replan_supports : planner -> Trajectory -> float -> Supports.
Variable replan : Supports -> Trajectory -> float -> Trajectory.
Variable sim_joints : list string.

Local Abbreviation state := (state Trajectory Supports WalkTasks HumanoidRobot).
Local Abbreviation refine_loop :=
  (refine_loop update_tasks_from_trajectory update_kinematics solve).
Local Abbreviation refine_body :=
  (refine_body update_tasks_from_trajectory update_kinematics solve).
Local Abbreviation refine_stage :=
  (refine_stage update_tasks_from_trajectory update_kinematics solve).
Local Abbreviation replan_due := (replan_due parameters_dt can_replan_supports).
Local Abbreviation replan_stage :=
  (replan_stage parameters_dt can_replan_supports replan_supports replan).
Local Abbreviation emitted := (emitted get_joint sim_joints).
Local Abbreviation tick :=
  (tick update_tasks_from_trajectory update_kinematics solve get_joint
     parameters_dt can_replan_supports replan_supports replan sim_joints).
Local Abbreviation loop_body :=
  (loop_body update_tasks_from_trajectory update_kinematics solve get_joint
     parameters_dt can_replan_supports replan_supports replan sim_joints).
Local Abbreviation faulted_throughout :=
  (faulted_throughout update_tasks_from_trajectory update_kinematics solve
     get_joint parameters_dt can_replan_supports replan_supports replan
     sim_joints).
Local Abbreviation run :=
  (run update_tasks_from_trajectory update_kinematics solve get_joint
     parameters_dt can_replan_supports replan_supports replan sim_joints).

(** The globals when line 241 is reached. *)
Local Abbreviation before_actuate s :=
  (replan_stage (refine_stage (configure_stage s))).

Ltac stage :=
  unfold Walk.replan_stage, Walk.refine_stage, Walk.configure_stage;
  repeat match goal with
         | |- context [if ?b then _ else _] => destruct b
         end;
  cbn; try reflexivity.

(** *** What lines 197-227 leave alone *)

Lemma before_actuate_clock (s : state) :
  t (before_actuate s) = t s /\ start_t (before_actuate s) = start_t s
  /\ solver_dt (before_actuate s) = solver_dt s
  /\ petage_de_gueule (before_actuate s) = petage_de_gueule s.
Proof. repeat split; stage. Qed.

Lemma before_actuate_timers (s : state) (f : foot) :
  timer f (before_actuate s) = timer f s.
Proof. destruct f; stage. Qed.

Lemma before_actuate_completes (m : mode) (s : state) :
  completes m (before_actuate s) = completes m s.
Proof.
  destruct m; try reflexivity. unfold completes.
  change (time_since_last_left_contact ?x) with (timer LeftFoot x).
  change (time_since_last_right_contact ?x) with (timer RightFoot x).
  rewrite !before_actuate_timers. reflexivity.
Qed.

Lemma before_actuate_solver (s : state) :
  (tasks (before_actuate s), robot (before_actuate s))
  = refine_loop (petage_de_gueule s) (solver_dt s) (trajectory s) (t s)
      (tasks s, robot s).
Proof.
  unfold Walk.replan_stage.
  destruct (replan_due _); cbn [tasks robot];
    unfold Walk.refine_stage, Walk.configure_stage;
    destruct (got_input s); cbn [tasks robot petage_de_gueule solver_dt
                                   trajectory t];
    symmetry; apply surjective_pairing.
Qed.

Lemma replan_due_before (s : state) :
  replan_due (refine_stage (configure_stage s)) = replan_due s.
Proof.
  unfold Walk.replan_due, Walk.refine_stage, Walk.configure_stage.
  destruct (got_input s); reflexivity.
Qed.

Lemma before_actuate_plan (s : state) :
  if replan_due s then
    last_replan (before_actuate s) = t s
    /\ supports (before_actuate s)
       = replan_supports (configured s) (trajectory s) (t s)
    /\ trajectory (before_actuate s)
       = replan (replan_supports (configured s) (trajectory s) (t s))
           (trajectory s) (t s)
  else
    last_replan (before_actuate s) = last_replan s
    /\ supports (before_actuate s) = supports s
    /\ trajectory (before_actuate s) = trajectory s.
Proof.
  unfold Walk.replan_stage. rewrite replan_due_before.
  destruct (replan_due s);
    unfold Walk.refine_stage, Walk.configure_stage, Walk.configured;
    destruct (got_input s); cbn; repeat split.
Qed.

(** *** Lines 241-319 *)

Lemma fault_check_some (l r : float) :
  fault_check (Some l) (Some r)
  = Ok ((single_support_duration <? l) || (single_support_duration <? r)).
Proof.
  unfold fault_check; cbn [bind read].
destruct (single_support_duration <? l); reflexivity.
Qed.

Lemma contact_stage_some (inp : sensed) (s : state) (l r : float) :
  time_since_last_left_contact s = Some l ->
  time_since_last_right_contact s = Some r ->
  let l1 := if snd (feet_contact inp) then 0 else l in
  let r1 := if fst (feet_contact inp) then 0 else r in
  exists s4,
    contact_stage inp s = Ok s4
    /\ same_plan s4 s
    /\ petage_de_gueule s4
       = (single_support_duration <? l1) || (single_support_duration <? r1)
    /\ time_since_last_left_contact s4 = Some (l1 + DT)
    /\ time_since_last_right_contact s4 = Some (r1 + DT).
Proof.
  intros Hl Hr l1 r1. unfold contact_stage, observe. rewrite Hl, Hr.
  replace (if snd (feet_contact inp) then Some 0 else Some l)
    with (Some l1) by (subst l1; destruct (snd (feet_contact inp)); reflexivity).
  replace (if fst (feet_contact inp) then Some 0 else Some r)
    with (Some r1) by (subst r1; destruct (fst (feet_contact inp)); reflexivity).
  rewrite fault_check_some. cbn [bind read].
  eexists; split; [reflexivity|]. cbn. unfold same_plan. cbn. tauto.
Qed.

Lemma actuate_stage_completes (m : mode) (inp : sensed) (s : state) :
  completes m s = true ->
  exists s4,
    actuate_stage m inp s = Ok s4 /\ same_plan s4 s
    /\ completes m s4 = true.
Proof.
  destruct m; cbn [completes actuate_stage]; intros H; try discriminate.
  - exists s. unfold same_plan. tauto.
  - exists s. unfold same_plan. tauto.
  - destruct (time_since_last_left_contact s) as [l|] eqn:Hl; [|discriminate].
    destruct (time_since_last_right_contact s) as [r|] eqn:Hr; [|discriminate].
    pose proof (contact_stage_some inp s l r Hl Hr) as X. cbv zeta in X.
destruct X as (s4 & E & P & _ & L & R).
    exists s4. rewrite L, R. auto.
Qed.

(** A pass that runs to line 319: the globals are those of line 241,
    changed by lines 289-317 and with the clock moved on. *)
Lemma tick_completes (m : mode) (inp : sensed) (s : state) :
  completes m s = true ->
  exists s4,
    tick m inp s
    = (emitted m (robot (before_actuate s)), Ok (advance s4))
    /\ actuate_stage m inp (before_actuate s) = Ok s4
    /\ same_plan s4 (before_actuate s)
    /\ completes m (advance s4) = true.
Proof.
  intros H. rewrite <- before_actuate_completes in H.
  destruct (actuate_stage_completes m inp _ H) as (s4 & E & P & C).
  exists s4. unfold Walk.tick. rewrite E. cbn [bind].
  repeat split; auto; apply P.
Qed.

Lemma contact_stage_ok (inp : sensed) (s s4 : state) :
  contact_stage inp s = Ok s4 -> same_plan s4 s.
Proof.
  unfold contact_stage, fault_check, observe, read, bind.
  repeat match goal with
         | |- context [match ?x with _ => _ end] => destruct x
         end;
    intros H; inversion H; unfold same_plan; cbn; tauto.
Qed.

Lemma actuate_stage_ok (m : mode) (inp : sensed) (s s4 : state) :
  actuate_stage m inp s = Ok s4 -> same_plan s4 s.
Proof.
  destruct m; cbn [actuate_stage].
  - intros H; inversion H; unfold same_plan; tauto.
  - intros H; inversion H; unfold same_plan; tauto.
  - unfold fault_check, read, bind.
    repeat match goal with
           | |- context [match ?x with _ => _ end] => destruct x
           end; discriminate.
  - apply contact_stage_ok.
Qed.

(** Whatever the flag, a pass that runs to line 319 keeps lines 197-227's
    plan, tasks and robot and moves the clock by [DT]. *)
Lemma tick_ok (m : mode) (inp : sensed) (s s' : state) :
  snd (tick m inp s) = Ok s' ->
  t s' = t s + DT /\ start_t s' = start_t s /\ solver_dt s' = solver_dt s
  /\ tasks s' = tasks (before_actuate s)
  /\ robot s' = robot (before_actuate s)
  /\ last_replan s' = last_replan (before_actuate s)
  /\ supports s' = supports (before_actuate s)
  /\ trajectory s' = trajectory (before_actuate s).
Proof.
  unfold Walk.tick; cbn [snd].
  destruct (actuate_stage m inp (before_actuate s)) as [s4|e] eqn:E;
    cbn [bind]; [|discriminate].
  intros H; inversion H; subst s'; clear H.
  apply actuate_stage_ok in E.
  destruct E as (E1 & E2 & E3 & E4 & E5 & E6 & E7 & E8).
  destruct (before_actuate_clock s) as (C1 & C2 & C3 & _).
  cbn [advance t start_t solver_dt tasks robot last_replan supports trajectory].
  rewrite E1, E2, E4, C1, C2, C3. auto 10.
Qed.

(** *** The solver loop *)

Lemma refine_frozen (dt : float) (traj : Trajectory) (tm : float) :
  forall (ks : list nat) (w : WalkTasks * HumanoidRobot),
    fold_left (refine_body true dt traj tm) ks w
    = (fst w,
       Nat.iter (length ks)
         (fun r => solve dt (fst w) (update_kinematics r)) (snd w)).
Proof.
  induction ks as [|k ks IH]; intros w.
  - cbn. apply surjective_pairing.
  - cbn [fold_left length]. rewrite IH. unfold Walk.refine_body at 1 2.
    cbn [negb fst snd]. rewrite Nat.iter_succ_r. reflexivity.
Qed.

(** Under [--robot] no pass runs to line 319: the joint targets go to
    the hardware, then line 299 (or 308, or 310) reads a global that was
    never assigned. *)
Lemma tick_robot_raises (inp : sensed) (s : state) :
  tick ArgRobot inp s
  = (Some (HwiPositions (angles get_joint (robot (before_actuate s)))),
     Raise NameError).
Proof.
  unfold Walk.tick, actuate_stage, Walk.emitted. f_equal.
  destruct (time_since_last_left_contact (before_actuate s)) as [l|];
    [|reflexivity].
  destruct (time_since_last_right_contact (before_actuate s)) as [r|];
    unfold fault_check, read, bind;
    destruct (single_support_duration <? l); try reflexivity;
    destruct (single_support_duration <? r); reflexivity.
Qed.

(** C5.  In a pass that runs to line 319, the replan is done exactly
    when [t - last_replan > replan_timesteps * parameters.dt()] and
    [walk.can_replan_supports(trajectory, t)] both hold.  It then sets
    [last_replan] to the current [t] and replaces the supports by
    [walk.replan_supports] and the trajectory by [walk.replan] over
    them; otherwise (also when only [can_replan_supports] fails) the
    pass raises nothing and leaves [last_replan], the supports and the
    trajectory as they were. *)
Theorem replan_gating (m : mode) (inp : sensed) (s : state) :
  completes m s = true ->
  exists out s',
    tick m inp s = (out, Ok s')
    /\ replan_due s
       = (to_float replan_timesteps * parameters_dt <? t s - last_replan s)
         && can_replan_supports (trajectory s) (t s)
    /\ (if replan_due s then
          last_replan s' = t s
          /\ supports s' = replan_supports (configured s) (trajectory s) (t s)
          /\ trajectory s' = replan (supports s') (trajectory s) (t s)
        else
          last_replan s' = last_replan s
          /\ supports s' = supports s
          /\ trajectory s' = trajectory s).
Proof.
  intros H. destruct (tick_completes m inp s H) as (s4 & E & _).
  exists (emitted m (robot (before_actuate s))), (advance s4).
  split; [exact E|]. split; [reflexivity|].
  assert (Hok : snd (tick m inp s) = Ok (advance s4)) by (rewrite E; reflexivity).
  destruct (tick_ok m inp s _ Hok) as (_ & _ & _ & _ & _ & L & S & T).
  pose proof (before_actuate_plan s) as P.
  destruct (replan_due s); destruct P as (P1 & P2 & P3);
    rewrite L, S, T, P1, P2, P3; auto.
Qed.

Lemma refine_loop_frozen (dt : float) (traj : Trajectory) (tm : float)
  (w : WalkTasks * HumanoidRobot) :
  refine_loop true dt traj tm w
  = (fst w,
     Nat.iter REFINE (fun r => solve dt (fst w) (update_kinematics r)) (snd w)).
Proof.
  unfold Walk.refine_loop. rewrite refine_frozen, length_seq. reflexivity.
Qed.

(** One pass entered with the fault flag set. *)
Lemma faulted_tick_keeps_tasks (m : mode) (inp : sensed) (s s' : state) :
  petage_de_gueule s = true ->
  snd (tick m inp s) = Ok s' ->
  tasks s' = tasks s
  /\ robot s'
     = Nat.iter REFINE
         (fun r => solve (solver_dt s) (tasks s) (update_kinematics r))
         (robot s).
Proof.
  intros Hf Hok.
  destruct (tick_ok m inp s s' Hok) as (_ & _ & _ & Tk & Rb & _).
  assert (W : (tasks (before_actuate s), robot (before_actuate s))
              = refine_loop true (solver_dt s) (trajectory s) (t s)
                  (tasks s, robot s)).
  { rewrite <- Hf. apply before_actuate_solver. }
  rewrite refine_loop_frozen in W. cbn [fst snd] in W.
  injection W as W1 W2. rewrite Tk, Rb, W1, W2. split; reflexivity.
Qed.

Lemma faulted_run_keeps_tasks (m : mode) :
  forall (inps : list sensed) (s : state),
    faulted_throughout m inps s ->
    exists s', run m inps s = Ok s' /\ tasks s' = tasks s.
Proof.
  induction inps as [|inp rest IH]; intros s Hall.
  - exists s. split; reflexivity.
  - cbn [Walk.faulted_throughout] in Hall. destruct Hall as [Hf Hrest].
    cbn [Walk.run].
    destruct (snd (tick m inp s)) as [s1|e] eqn:E; [|contradiction].
    cbn [bind]. destruct (IH s1 Hrest) as (s' & Hrun & Htasks).
    exists s'. split; [exact Hrun|]. rewrite Htasks.
    apply (faulted_tick_keeps_tasks m inp s s1 Hf E).
Qed.

(** C4.  A pass entered with [petage_de_gueule = True] never calls
    [tasks.update_tasks_from_trajectory]: after each of the [REFINE]
    sub-iterations the task targets are the ones the pass started
    with, while [robot.update_kinematics()] and [solver.solve(True)]
    have run once per sub-iteration; at line 319 the targets are still
    those, and they stay so over any stretch of such passes. *)
Theorem faulted_pass_keeps_targets (m : mode) (s : state) :
  petage_de_gueule s = true ->
  (forall k, k <= REFINE ->
     fold_left (refine_body true (solver_dt s) (trajectory s) (t s))
       (seq 0 k) (tasks s, robot s)
     = (tasks s,
        Nat.iter k
          (fun r => solve (solver_dt s) (tasks s) (update_kinematics r))
          (robot s)))
  /\ (forall inp s',
        snd (tick m inp s) = Ok s' ->
        tasks s' = tasks s
        /\ robot s'
           = Nat.iter REFINE
               (fun r => solve (solver_dt s) (tasks s) (update_kinematics r))
               (robot s))
  /\ (forall inps,
        faulted_throughout m inps s ->
        exists s', run m inps s = Ok s' /\ tasks s' = tasks s).
Proof.
  intros Hf. split; [|split].
  - intros k _. rewrite refine_frozen, length_seq. reflexivity.
  - intros inp s' Hok. apply (faulted_tick_keeps_tasks m inp s s' Hf Hok).
  - intros inps Hall. apply (faulted_run_keeps_tasks m inps s Hall).
Qed.

(** C8.  [REFINE] is 10 and [solver.dt] is [DT / REFINE] when the loop
    is entered; every pass runs the body of lines 204-208 for
    [k = 0 .. 9], with [update_tasks_from_trajectory] sampling the
    trajectory at [t - DT + k * DT / REFINE] unless the fault flag is
    set; the joint targets handed over in the pass are read from the
    robot as these ten sub-iterations left it; and a pass that runs to
    line 319 leaves [solver.dt] as it was. *)
Theorem refine_sub_iterations (m : mode) (inp : sensed) (s : state) :
  completes m s = true ->
  REFINE = 10%nat
  /\ (forall m0 wall tk rb sp tr,
        solver_dt (initial m0 wall tk rb sp tr : state) = DT / to_float REFINE)
  /\ (forall frozen dt traj tm w,
        refine_loop frozen dt traj tm w
        = fold_left
            (fun w k =>
               let targets :=
                 if frozen then fst w
                 else update_tasks_from_trajectory traj
                        (tm - DT + to_float k * DT / to_float REFINE) (fst w) in
               (targets, solve dt targets (update_kinematics (snd w))))
            [0; 1; 2; 3; 4; 5; 6; 7; 8; 9]%nat w)
  /\ exists s',
       tick m inp s
       = (emitted m
            (snd (refine_loop (petage_de_gueule s) (solver_dt s) (trajectory s)
                    (t s) (tasks s, robot s))),
          Ok s')
       /\ solver_dt s' = solver_dt s.
Proof.
  intros H. split; [reflexivity|]. split; [reflexivity|]. split.
  - intros frozen dt traj tm w. unfold Walk.refine_loop, Walk.refine_body,
      sample_time.
    destruct frozen; reflexivity.
  - destruct (tick_completes m inp s H) as (s4 & E & _).
    exists (advance s4). rewrite <- before_actuate_solver. cbn [snd].
    split; [exact E|].
    assert (Hok : snd (tick m inp s) = Ok (advance s4)) by (rewrite E; reflexivity).
    apply (tick_ok m inp s _ Hok).
Qed.

(** *** The contact timers and the fault flag *)

(** A pass under [--mujoco] with both timers assigned. *)
Lemma tick_mujoco (inp : sensed) (s : state) (l r : float) :
  time_since_last_left_contact s = Some l ->
  time_since_last_right_contact s = Some r ->
  exists out s',
    tick ArgMujoco inp s = (out, Ok s')
    /\ petage_de_gueule s'
       = (single_support_duration <? (if snd (feet_contact inp) then 0 else l))
         || (single_support_duration <? (if fst (feet_contact inp) then 0 else r))
    /\ time_since_last_left_contact s'
       = Some ((if snd (feet_contact inp) then 0 else l) + DT)
    /\ time_since_last_right_contact s'
       = Some ((if fst (feet_contact inp) then 0 else r) + DT).
Proof.
  intros Hl Hr.
  assert (Hl' : time_since_last_left_contact (before_actuate s) = Some l)
    by (rewrite <- Hl; apply (before_actuate_timers s LeftFoot)).
  assert (Hr' : time_since_last_right_contact (before_actuate s) = Some r)
    by (rewrite <- Hr; apply (before_actuate_timers s RightFoot)).
  pose proof (contact_stage_some inp (before_actuate s) l r Hl' Hr') as X.
  cbv zeta in X. destruct X as (s4 & E & _ & F & L & R).
  exists (emitted ArgMujoco (robot (before_actuate s))), (advance s4).
  unfold Walk.tick. cbn [actuate_stage]. rewrite E. cbn [bind].
  repeat split; assumption.
Qed.

Lemma ramp_low (j : nat) :
  j <= 19 -> (single_support_duration <? ramp j) = false.
Proof.
  intros H. do 20 (destruct j as [|j]; [reflexivity|]). lia.
Qed.

Lemma ramp_20 : (single_support_duration <? ramp 20) = true.
Proof. reflexivity. Qed.

(** One pass with foot [f] off the ground: its timer moves one step up
    the ramp, the other timer is somewhere below, and the flag is set
    from the two values the pass started with. *)
Lemma contactless_step (f : foot) (inp : sensed) (s : state) (k j : nat) :
  timer f s = Some (ramp k) ->
  timer (other f) s = Some (ramp j) ->
  j <= k ->
  touches f inp = false ->
  exists s' j',
    snd (tick ArgMujoco inp s) = Ok s'
    /\ timer f s' = Some (ramp (S k))
    /\ timer (other f) s' = Some (ramp (S j'))
    /\ j' <= k
    /\ ((single_support_duration <? ramp k) = true ->
        petage_de_gueule s' = true)
    /\ ((single_support_duration <? ramp k) = false ->
        (single_support_duration <? ramp j') = false ->
        petage_de_gueule s' = false).
Proof.
  intros Hf Ho Hjk Hc.
  destruct f; cbn [timer other touches] in *.
  - destruct (tick_mujoco inp s _ _ Hf Ho) as (out & s' & E & P & L & R).
    rewrite Hc in P, L.
    exists s', (if fst (feet_contact inp) then 0 else j)%nat.
    rewrite E. split; [reflexivity|]. split; [exact L|].
    destruct (fst (feet_contact inp)); (split; [exact R|]);
      (split; [lia|]); rewrite P; split; intros A;
      try (intros B); rewrite A; try rewrite B; reflexivity.
  - destruct (tick_mujoco inp s _ _ Ho Hf) as (out & s' & E & P & L & R).
    rewrite Hc in P, R.
    exists s', (if snd (feet_contact inp) then 0 else j)%nat.
    rewrite E. split; [reflexivity|]. split; [exact R|].
    destruct (snd (feet_contact inp)); (split; [exact L|]);
      (split; [lia|]); rewrite P; split; intros A;
      try (intros B); rewrite A; try rewrite B;
      try reflexivity; apply orb_true_r.
Qed.

Lemma contactless_run (f : foot) :
  forall (inps : list sensed) (s : state) (k j : nat),
    timer f s = Some (ramp k) ->
    timer (other f) s = Some (ramp j) ->
    j <= k ->
    Forall (fun inp => touches f inp = false) inps ->
    inps <> [] ->
    exists s' j',
      run ArgMujoco inps s = Ok s'
      /\ j' <= k + length inps - 1
      /\ ((single_support_duration <? ramp (k + length inps - 1)) = true ->
          petage_de_gueule s' = true)
      /\ ((single_support_duration <? ramp (k + length inps - 1)) = false ->
          (single_support_duration <? ramp j') = false ->
          petage_de_gueule s' = false).
Proof.
  induction inps as [|inp rest IH]; intros s k j Hf Ho Hjk Hall Hne;
    [congruence|].
  inversion Hall as [|? ? Hc Hrest]; subst.
  destruct (contactless_step f inp s k j Hf Ho Hjk Hc)
    as (s1 & j1 & E & F1 & O1 & J1 & Pt & Pf).
  cbn [Walk.run]. rewrite E. cbn [bind].
  destruct rest as [|inp2 rest2].
  - exists s1, j1. cbn [Walk.run length].
    replace (k + 1 - 1)%nat with k by lia. auto.
  - destruct (IH s1 (S k) (S j1) F1 O1 ltac:(lia) Hrest ltac:(discriminate))
      as (s' & j' & Hrun & J' & Pt' & Pf').
    exists s', j'.
    replace (k + length (inp :: inp2 :: rest2) - 1)%nat
      with (S k + length (inp2 :: rest2) - 1)%nat by (cbn [length]; lia).
    auto.
Qed.

(** C2.  Under [--mujoco], with [single_support_duration = 0.2] and
    [DT = 0.01], start from both timers at [0.0] and let one foot be
    reported off the ground in every pass (the other foot may do
    anything).  Then every pass runs to line 319; the fault flag is
    not set at the end of any of the first 20 passes; and it is set at
    the end of the 21st. *)
Theorem fault_by_21st_contactless_tick (f : foot) (inps : list sensed)
  (s : state) :
  timer LeftFoot s = Some 0 ->
  timer RightFoot s = Some 0 ->
  Forall (fun inp => touches f inp = false) inps ->
  exists s',
    run ArgMujoco inps s = Ok s'
    /\ (1 <= length inps <= 20 -> petage_de_gueule s' = false)
    /\ (length inps = 21%nat -> petage_de_gueule s' = true).
Proof.
  intros Hl Hr Hall.
  destruct inps as [|inp rest].
  - exists s. split; [reflexivity|]. cbn [length]. split; intros; lia.
  - assert (Hf : timer f s = Some (ramp 0)) by (destruct f; assumption).
    assert (Ho : timer (other f) s = Some (ramp 0)) by (destruct f; assumption).
    destruct (contactless_run f (inp :: rest) s 0 0 Hf Ho (le_n 0) Hall
                ltac:(discriminate))
      as (s' & j' & Hrun & J' & Pt & Pf).
    exists s'. split; [exact Hrun|]. cbn [Nat.add] in *. split.
    + intros Hlen. apply Pf; apply ramp_low; lia.
    + intros Hlen. apply Pt. rewrite Hlen. exact ramp_20.
Qed.

(** C3, amended.  Under [--mujoco] with both timers assigned, each pass
    first sets to [0.0] the timer of every foot whose contact is
    reported, then sets the fault flag exactly when the left or the
    right timer is above [single_support_duration], whatever the flag
    was and whatever the support phase of the trajectory, and then
    adds [DT] to both timers.  So a pass in which both feet touch
    always ends with the flag cleared. *)
Theorem fault_flag_rule (inp : sensed) (s : state) (l r : float) :
  time_since_last_left_contact s = Some l ->
  time_since_last_right_contact s = Some r ->
  exists out s',
    tick ArgMujoco inp s = (out, Ok s')
    /\ petage_de_gueule s'
       = (single_support_duration <? (if snd (feet_contact inp) then 0 else l))
         || (single_support_duration <? (if fst (feet_contact inp) then 0 else r))
    /\ time_since_last_left_contact s'
       = Some ((if snd (feet_contact inp) then 0 else l) + DT)
    /\ time_since_last_right_contact s'
       = Some ((if fst (feet_contact inp) then 0 else r) + DT)
    /\ (feet_contact inp = (true, true) -> petage_de_gueule s' = false).
Proof.
  intros Hl Hr.
  destruct (tick_mujoco inp s l r Hl Hr) as (out & s' & E & P & L & R).
  exists out, s'. repeat split; try assumption.
  intros Hc. rewrite P, Hc. reflexivity.
Qed.

(** *** The planning clock and the sleep loop *)






End Facts.




(** *** The statements at work on the stand-in *)

Local Abbreviation on_bench thm :=
  (thm Bench.update_tasks_from_trajectory Bench.update_kinematics Bench.solve
     Bench.get_joint Bench.parameters_dt Bench.can_replan_supports
     Bench.replan_supports Bench.replan Bench.sim_joints).

Lemma replan_gating_witness :
  (exists out s',
      Bench.tick ArgMujoco Bench.standing (Bench.start ArgMujoco) = (out, Ok s')
      /\ last_replan s' = 0 /\ trajectory s' = [])
  /\ (exists out s',
        Bench.tick ArgMujoco Bench.standing Bench.late = (out, Ok s')
        /\ last_replan s' = 140737488355328
        /\ trajectory s' = [140737488355328]).
Proof.
  split.
  - destruct (on_bench replan_gating ArgMujoco Bench.standing
                (Bench.start ArgMujoco) eq_refl)
      as (out & s' & E & _ & L & _ & T).
    exists out, s'. split; [exact E|]. split; [exact L|exact T].
  - destruct (on_bench replan_gating ArgMujoco Bench.standing Bench.late
                eq_refl)
      as (out & s' & E & _ & L & S & T).
    exists out, s'. split; [exact E|]. split; [exact L|].
    rewrite T, S. reflexivity.
Defined.

Lemma fault_by_21st_contactless_tick_witness :
  (exists s',
      Bench.run ArgMujoco (repeat Bench.airborne 20) (Bench.start ArgMujoco)
      = Ok s'
      /\ petage_de_gueule s' = false)
  /\ (exists s',
        Bench.run ArgMujoco (repeat Bench.airborne 21) (Bench.start ArgMujoco)
        = Ok s'
        /\ petage_de_gueule s' = true).
Proof.
  split.
  - destruct (on_bench fault_by_21st_contactless_tick LeftFoot
                (repeat Bench.airborne 20) (Bench.start ArgMujoco)
                eq_refl eq_refl)
      as (s' & R & F & _).
    + repeat constructor.
    + exists s'. split; [exact R|]. apply F. cbn. lia.
  - destruct (on_bench fault_by_21st_contactless_tick RightFoot
                (repeat Bench.airborne 21) (Bench.start ArgMujoco)
                eq_refl eq_refl)
      as (s' & R & _ & F).
    + repeat constructor.
    + exists s'. split; [exact R|]. apply F. reflexivity.
Defined.

Lemma fault_flag_rule_witness :
  exists out s',
    Bench.tick ArgMujoco Bench.airborne Bench.fallen = (out, Ok s')
    /\ petage_de_gueule s' = true
    /\ time_since_last_left_contact s' = Some (0.3 + DT).
Proof.
  destruct (on_bench fault_flag_rule Bench.airborne Bench.fallen 0.3 0.3
              eq_refl eq_refl)
    as (out & s' & E & P & L & _).
  exists out, s'. split; [exact E|]. split; [exact P|exact L].
Defined.

(** C3 as stated fails.  On the stand-in, whose trajectory is in double
    support at every time, the robot is held off the ground from the
    first pass.  After 20 passes the flag is clear; the 21st pass sets
    it, although the rule of the specification, which asks for single
    support on the side of the timer, does not fire. *)
Lemma fault_outside_single_support :
  match Bench.run ArgMujoco (repeat Bench.airborne 20) (Bench.start ArgMujoco)
  with
  | Ok s =>
      petage_de_gueule s = false
      /\ match snd (Bench.tick ArgMujoco Bench.airborne s),
               time_since_last_left_contact s,
               time_since_last_right_contact s with
         | Ok s', Some l, Some r =>
             petage_de_gueule s' = true
             /\ spec_fault_rule (Bench.phase_at (trajectory s) (t s)) l r
                = false
         | _, _, _ => False
         end
  | Raise _ => False
  end.
Proof. vm_compute. split; [reflexivity|]. split; reflexivity. Qed.

Lemma faulted_pass_keeps_targets_witness :
  (exists s',
      snd (Bench.tick ArgMujoco Bench.airborne Bench.fallen) = Ok s'
      /\ tasks s' = [2.5]
      /\ robot s' = 3010%nat)
  /\ (exists s',
        Bench.run ArgMujoco [Bench.airborne; Bench.airborne] Bench.fallen
        = Ok s'
        /\ tasks s' = [2.5]).
Proof.
  pose proof (on_bench faulted_pass_keeps_targets ArgMujoco Bench.fallen
                eq_refl) as (_ & A & B).
  split.
  - eexists. split; [reflexivity|]. apply (A Bench.airborne). reflexivity.
  - apply (B [Bench.airborne; Bench.airborne]). vm_compute. auto.
Defined.

Lemma refine_sub_iterations_witness :
  exists s',
    Bench.tick ArgMujoco Bench.standing (Bench.start ArgMujoco)
    = (Some (MujocoAction (repeat 10 13)), Ok s')
    /\ solver_dt s' = DT / 10.
Proof.
  destruct (on_bench refine_sub_iterations ArgMujoco Bench.standing
              (Bench.start ArgMujoco) eq_refl)
    as (_ & _ & _ & s' & E & D).
  exists s'. split; [exact E|exact D].
Defined.



End WalkProps.

(** * More on the control loop: modes, commands and contact histories *)

Module LoopProps.
Import Walk Gait.

Section Facts.

Context {Trajectory Supports WalkTasks HumanoidRobot : Type}.
Variable update_tasks_from_trajectory :
  Trajectory -> float -> WalkTasks -> WalkTasks.
Variable update_kinematics : HumanoidRobot -> HumanoidRobot.
Variable solve : float -> WalkTasks -> HumanoidRobot -> HumanoidRobot.
Variable get_joint : HumanoidRobot -> string -> float.
Variable parameters_dt : float.
Variable can_replan_supports : Trajectory -> float -> bool.
Variable replan_supports : planner -> Trajectory -> float -> Supports.
Variable replan : Supports -> Trajectory -> float -> Trajectory.
Variable sim_joints : list string.

Local Abbreviation state := (state Trajectory Supports WalkTasks HumanoidRobot).
Local Abbreviation refine_loop :=
  (refine_loop update_tasks_from_trajectory update_kinematics solve).
Local Abbreviation refine_stage :=
  (refine_stage update_tasks_from_trajectory update_kinematics solve).
Local Abbreviation replan_stage :=
  (replan_stage parameters_dt can_replan_supports replan_supports replan).
Local Abbreviation tick :=
  (tick update_tasks_from_trajectory update_kinematics solve get_joint
     parameters_dt can_replan_supports replan_supports replan sim_joints).
Local Abbreviation run :=
  (run update_tasks_from_trajectory update_kinematics solve get_joint
     parameters_dt can_replan_supports replan_supports replan sim_joints).
Local Abbreviation before_actuate s :=
  (replan_stage (refine_stage (configure_stage s))).
Local Abbreviation with_plan lemma :=
  (lemma Trajectory Supports WalkTasks HumanoidRobot
     update_tasks_from_trajectory update_kinematics solve
     parameters_dt can_replan_supports replan_supports replan).
Local Abbreviation with_loop lemma :=
  (lemma Trajectory Supports WalkTasks HumanoidRobot
     update_tasks_from_trajectory update_kinematics solve get_joint
     parameters_dt can_replan_supports replan_supports replan sim_joints).

Lemma run_app (m : mode) (xs ys : list sensed) :
  forall s : state, run m (xs ++ ys) s = (s1 <- run m xs s ;; run m ys s1).
Proof.
  induction xs as [|x xs IH]; intros s; [reflexivity|].
  cbn [app Walk.run]. destruct (snd (tick m x s)) as [s1|e]; cbn [bind];
    [apply IH|reflexivity].
Qed.

(** *** Passes that run to line 319 *)

(** X1.  Under [--pybullet], [--meshcat] or [--mujoco] (timers assigned)
    no pass of a run raises; the clock has moved by [DT] per pass and
    [solver.dt] and [start_t] are untouched. *)
Theorem run_never_raises (m : mode) :
  forall (inps : list sensed) (s : state),
    completes m s = true ->
    exists s',
      run m inps s = Ok s'
      /\ completes m s' = true
      /\ t s' = clock_after (length inps) (t s)
      /\ solver_dt s' = solver_dt s
      /\ start_t s' = start_t s.
Proof.
  induction inps as [|inp rest IH]; intros s H.
  - exists s. repeat split; auto.
  - destruct (with_loop (@WalkProps.tick_completes) m inp s H)
      as (s4 & E & _ & _ & C).
    assert (Hok : snd (tick m inp s) = Ok (advance s4))
      by (rewrite E; reflexivity).
    destruct (with_loop (@WalkProps.tick_ok) m inp s _ Hok)
      as (T & St & D & _).
    destruct (IH (advance s4) C) as (s' & R & C' & T' & D' & St').
    exists s'. cbn [Walk.run]. rewrite Hok. cbn [bind].
    split; [exact R|]. split; [exact C'|].
    rewrite T', D', St', T, D, St. repeat split.
    unfold clock_after. cbn [length]. rewrite Nat.iter_succ_r. reflexivity.
Qed.

(** X2.  Under [--robot] the first pass hands the joint targets of the
    robot, as the ten solver sub-iterations left it, to the hardware
    and then raises [NameError]; no run of one pass or more
    completes. *)
Theorem robot_run_raises (inp : sensed) (rest : list sensed) (s : state) :
  fst (tick ArgRobot inp s)
  = Some (HwiPositions
            (angles get_joint
               (snd (refine_loop (petage_de_gueule s) (solver_dt s)
                       (trajectory s) (t s) (tasks s, robot s)))))
  /\ run ArgRobot (inp :: rest) s = Raise NameError.
Proof.
  pose proof (with_loop (@WalkProps.tick_robot_raises) inp s) as E.
  split.
  - rewrite E. cbn [fst].
    rewrite <- (WalkProps.before_actuate_solver update_tasks_from_trajectory
                  update_kinematics solve parameters_dt can_replan_supports
                  replan_supports replan s).
    reflexivity.
  - cbn [Walk.run]. rewrite E. reflexivity.
Qed.

(** *** The step command *)

Lemma before_actuate_command (s : state) :
  command (before_actuate s) = command s
  /\ repetitive_footsteps_planner (before_actuate s) = configured s
  /\ got_input (before_actuate s) = false.
Proof.
  unfold Walk.replan_stage, Walk.refine_stage, Walk.configure_stage,
    configured, command.
  destruct (got_input s) eqn:G;
    match goal with
    | |- context [if ?b then _ else _] => destruct b
    end; cbn; rewrite ?G; repeat split.
Qed.

Lemma viewer_tick (m : mode) (inp : sensed) (s : state) :
  m = ArgPybullet \/ m = ArgMeshcat ->
  snd (tick m inp s) = Ok (advance (before_actuate s)).
Proof. intros [H|H]; subst m; reflexivity. Qed.

(** X3.  Under [--pybullet] or [--meshcat], from globals with
    [got_input = False] (as at loop entry), no pass raises and no pass
    changes the fault flag, the step command, the planner
    configuration or the timers: contact faults and key commands exist
    only under [--mujoco]. *)
Theorem viewer_modes_change_nothing (m : mode) :
  m = ArgPybullet \/ m = ArgMeshcat ->
  forall (inps : list sensed) (s : state),
    got_input s = false ->
    exists s',
      run m inps s = Ok s'
      /\ petage_de_gueule s' = petage_de_gueule s
      /\ got_input s' = false
      /\ command s' = command s
      /\ repetitive_footsteps_planner s' = repetitive_footsteps_planner s
      /\ timer LeftFoot s' = timer LeftFoot s
      /\ timer RightFoot s' = timer RightFoot s.
Proof.
  intros Hm. induction inps as [|inp rest IH]; intros s G.
  - exists s. repeat split; auto.
  - cbn [Walk.run]. rewrite (viewer_tick m inp s Hm). cbn [bind].
    destruct (before_actuate_command s) as (C & P & G').
    destruct (with_plan (@WalkProps.before_actuate_clock) s) as (_ & _ & _ & F).
    pose proof (with_plan (@WalkProps.before_actuate_timers) s LeftFoot) as L.
    pose proof (with_plan (@WalkProps.before_actuate_timers) s RightFoot) as R.
    destruct (IH (advance (before_actuate s)) G')
      as (s' & Hrun & F' & G'' & C' & P' & L' & R').
    exists s'. split; [exact Hrun|].
    rewrite F', C', P', L', R'.
    change (petage_de_gueule (advance ?x)) with (petage_de_gueule x).
    change (command (advance ?x)) with (command x).
    change (repetitive_footsteps_planner (advance ?x))
      with (repetitive_footsteps_planner x).
    change (timer ?f (advance ?x)) with (timer f x).
    rewrite F, C, P, L, R. unfold configured. rewrite G. repeat split; auto.
Qed.

Lemma contact_stage_command (inp : sensed) (s : state) (l r : float) :
  time_since_last_left_contact s = Some l ->
  time_since_last_right_contact s = Some r ->
  exists s4,
    contact_stage inp s = Ok s4
    /\ got_input s4 = true
    /\ repetitive_footsteps_planner s4 = repetitive_footsteps_planner s
    /\ command s4
       = {| step_dx := if key_pressed inp then 0.05 else 0;
            step_dy := if key_pressed inp then d_y s else 0;
            step_dtheta := if key_pressed inp then d_theta s else 0;
            step_count := nb_steps s |}
    /\ completes ArgMujoco s4 = true.
Proof.
  intros Hl Hr. unfold contact_stage, observe. rewrite Hl, Hr.
  destruct (snd (feet_contact inp)), (fst (feet_contact inp));
    rewrite WalkProps.fault_check_some; cbn [bind read];
    eexists; (split; [reflexivity|]); cbn; repeat split.
Qed.

(** One pass under [--mujoco]: the planner gets the command the pass
    started with when [got_input] was set, and the pass leaves the
    command of lines 310-317. *)
Lemma mujoco_tick_command (inp : sensed) (s : state) :
  completes ArgMujoco s = true ->
  exists s',
    snd (tick ArgMujoco inp s) = Ok s'
    /\ completes ArgMujoco s' = true
    /\ got_input s' = true
    /\ repetitive_footsteps_planner s' = configured s
    /\ command s'
       = {| step_dx := if key_pressed inp then 0.05 else 0;
            step_dy := if key_pressed inp then d_y s else 0;
            step_dtheta := if key_pressed inp then d_theta s else 0;
            step_count := nb_steps s |}.
Proof.
  intros H. rewrite <- (with_plan (@WalkProps.before_actuate_completes)) in H.
  cbn [completes] in H.
  destruct (time_since_last_left_contact (before_actuate s)) as [l|] eqn:Hl;
    [|discriminate].
  destruct (time_since_last_right_contact (before_actuate s)) as [r|] eqn:Hr;
    [|discriminate].
  destruct (contact_stage_command inp _ l r Hl Hr) as (s4 & E & G & P & C & K).
  destruct (before_actuate_command s) as (C0 & P0 & _).
  exists (advance s4). unfold Walk.tick. cbn [snd actuate_stage].
  rewrite E. cbn [bind]. split; [reflexivity|]. split; [exact K|].
  split; [exact G|].
  change (repetitive_footsteps_planner (advance s4))
    with (repetitive_footsteps_planner s4).
  change (command (advance s4)) with (command s4).
  rewrite P, P0, C. split; [reflexivity|].
  injection C0 as Cx Cy Ct Cn. rewrite Cy, Ct, Cn. reflexivity.
Qed.

Lemma mujoco_run_command :
  forall (inps : list sensed) (s : state),
    completes ArgMujoco s = true ->
    d_y s = 0 -> d_theta s = 0 -> nb_steps s = 5%Z ->
    exists s',
      run ArgMujoco inps s = Ok s'
      /\ completes ArgMujoco s' = true
      /\ d_y s' = 0 /\ d_theta s' = 0 /\ nb_steps s' = 5%Z
      /\ (inps <> [] -> got_input s' = true).
Proof.
  induction inps as [|inp rest IH]; intros s H Y T N.
  - exists s. repeat split; auto; congruence.
  - destruct (mujoco_tick_command inp s H) as (s1 & E & H1 & G1 & _ & C1).
    injection C1 as _ Cy Ct Cn. rewrite Y in Cy. rewrite T in Ct.
    rewrite N in Cn.
    assert (Y1 : d_y s1 = 0) by (rewrite Cy; destruct (key_pressed inp); reflexivity).
    assert (T1 : d_theta s1 = 0)
      by (rewrite Ct; destruct (key_pressed inp); reflexivity).
    destruct (IH s1 H1 Y1 T1 Cn) as (s' & R & H' & Y' & T' & N' & G').
    exists s'. cbn [Walk.run]. rewrite E. cbn [bind].
    repeat split; auto. intros _.
    destruct rest as [|x rest']; [|apply G'; discriminate].
    inversion R; subst; exact G1.
Qed.

(** X4.  Under [--mujoco], from the globals at loop entry, the first pass
    still plans with the configuration of line 146 (0.1, 0, 0, 5);
    every later pass reconfigures the planner with the command left by
    the pass before it: step length 0.05 if a key was down in that
    pass and 0 if not, sideways step 0, turn 0, 5 steps. *)
Theorem mujoco_command_follows_keys
  (wall : float) (tk : WalkTasks) (rb : HumanoidRobot) (sp : Supports)
  (tr : Trajectory) :
  (forall a,
      exists s',
        run ArgMujoco [a] (initial ArgMujoco wall tk rb sp tr) = Ok s'
        /\ repetitive_footsteps_planner s'
           = {| step_dx := 0.1; step_dy := 0; step_dtheta := 0;
                step_count := 5 |}
        /\ command s' = keyed (key_pressed a))
  /\ (forall inps a b,
        exists s',
          run ArgMujoco (inps ++ [a; b]) (initial ArgMujoco wall tk rb sp tr)
          = Ok s'
          /\ repetitive_footsteps_planner s' = keyed (key_pressed a)
          /\ command s' = keyed (key_pressed b)).
Proof.
  split.
  - intros a.
    destruct (mujoco_tick_command a (initial ArgMujoco wall tk rb sp tr)
                eq_refl) as (s1 & E & _ & _ & P & C).
    exists s1. cbn [Walk.run]. rewrite E. cbn [bind].
    split; [reflexivity|]. split; [exact P|].
    rewrite C. unfold keyed. cbn. destruct (key_pressed a); reflexivity.
  - intros inps a b.
    destruct (mujoco_run_command inps (initial ArgMujoco wall tk rb sp tr)
                eq_refl eq_refl eq_refl eq_refl)
      as (s0 & R0 & H0 & Y0 & T0 & N0 & _).
    destruct (mujoco_tick_command a s0 H0) as (s1 & E1 & H1 & G1 & _ & C1).
    destruct (mujoco_tick_command b s1 H1) as (s2 & E2 & _ & _ & P2 & C2).
    exists s2. rewrite run_app, R0. cbn [bind Walk.run].
    rewrite E1. cbn [bind]. rewrite E2. cbn [bind].
    split; [reflexivity|].
    assert (K1 : command s1 = keyed (key_pressed a)).
    { rewrite C1, Y0, T0, N0. unfold keyed.
      destruct (key_pressed a); reflexivity. }
    split.
    + rewrite P2. unfold configured. rewrite G1. exact K1.
    + rewrite C2. injection K1 as _ Ky Kt Kn. rewrite Ky, Kt, Kn.
      unfold keyed. destruct (key_pressed b); reflexivity.
Qed.

(** *** Contact histories *)

Lemma ramp_agrees_spec :
  forall (n j : nat),
    ramp_agrees n j (ramp j) = true ->
    forall k, j <= k <= j + n ->
              (single_support_duration <? ramp k) = (20 <=? k)%nat.
Proof.
  induction n as [|n IH]; intros j H k Hk; cbn [ramp_agrees] in H;
    destruct (Bool.eqb (single_support_duration <? ramp j) (20 <=? j)%nat)
      eqn:E; try discriminate; apply Bool.eqb_prop in E.
  - replace k with j by lia. exact E.
  - destruct (Nat.eq_dec k j) as [->|Hne]; [exact E|].
    apply (IH (S j) H). lia.
Qed.

Lemma ramp_level (k : nat) :
  k <= 100000 -> (single_support_duration <? ramp k) = (20 <=? k)%nat.
Proof.
  intros H. apply (ramp_agrees_spec 100000 0); [vm_compute; reflexivity|lia].
Qed.

Lemma airtime_bound (f : foot) :
  forall (inps : list sensed) (c : nat), airtime f c inps <= c + length inps.
Proof.
  induction inps as [|inp rest IH]; intros c; cbn [airtime length]; [lia|].
  specialize (IH (S (if touches f inp then 0%nat else c))).
  destruct (touches f inp); lia.
Qed.

Lemma mujoco_run_timers :
  forall (inps : list sensed) (s : state) (cl cr : nat),
    timer LeftFoot s = Some (ramp cl) ->
    timer RightFoot s = Some (ramp cr) ->
    exists s',
      run ArgMujoco inps s = Ok s'
      /\ timer LeftFoot s' = Some (ramp (airtime LeftFoot cl inps))
      /\ timer RightFoot s' = Some (ramp (airtime RightFoot cr inps)).
Proof.
  induction inps as [|inp rest IH]; intros s cl cr Hl Hr.
  - exists s. repeat split; assumption.
  - destruct (with_loop (@WalkProps.tick_mujoco) inp s _ _ Hl Hr)
      as (out & s1 & E & _ & L & R).
    cbn [Walk.run airtime touches]. rewrite E. cbn [snd bind].
    apply IH; cbn [timer].
    + rewrite L. destruct (snd (feet_contact inp)); reflexivity.
    + rewrite R. destruct (fst (feet_contact inp)); reflexivity.
Qed.

(** X5.  Under [--mujoco], over a run of up to 100001 passes from both
    timers at [0.0], each timer holds [DT] added as many times as
    passes have gone by since its foot last touched (counting that
    pass), and the fault flag after a pass is set exactly when some
    foot did not touch in that pass and its timer had by then taken 20
    additions or more. *)
Theorem fault_flag_counts_passes (inps : list sensed) (last : sensed)
  (s : state) :
  timer LeftFoot s = Some 0 ->
  timer RightFoot s = Some 0 ->
  length inps <= 100000 ->
  exists s',
    run ArgMujoco (inps ++ [last]) s = Ok s'
    /\ timer LeftFoot s' = Some (ramp (airtime LeftFoot 0 (inps ++ [last])))
    /\ timer RightFoot s' = Some (ramp (airtime RightFoot 0 (inps ++ [last])))
    /\ petage_de_gueule s'
       = (20 <=? checked LeftFoot 0 inps last)%nat
         || (20 <=? checked RightFoot 0 inps last)%nat.
Proof.
  intros Hl Hr Hlen.
  destruct (mujoco_run_timers (inps ++ [last]) s 0 0 Hl Hr)
    as (s' & Hrun & L' & R').
  exists s'. split; [exact Hrun|]. split; [exact L'|]. split; [exact R'|].
  destruct (mujoco_run_timers inps s 0 0 Hl Hr) as (s0 & Hrun0 & L0 & R0).
  destruct (with_loop (@WalkProps.tick_mujoco) last s0 _ _ L0 R0)
    as (out & s1 & E & P & _).
  rewrite run_app, Hrun0 in Hrun. cbn [bind Walk.run] in Hrun.
  rewrite E in Hrun. cbn [snd bind] in Hrun.
  injection Hrun as <-. rewrite P. unfold checked. cbn [touches].
  pose proof (airtime_bound LeftFoot inps 0) as Bl.
  pose proof (airtime_bound RightFoot inps 0) as Br.
  f_equal.
  - destruct (snd (feet_contact last)); [reflexivity|].
    apply ramp_level. lia.
  - destruct (fst (feet_contact last)); [reflexivity|].
    apply ramp_level. lia.
Qed.

(** *** Task targets of a pass entered with the flag clear *)

Lemma refine_unfrozen_tasks (dt : float) (traj : Trajectory) (tm : float) :
  forall (ks : list nat) (w : WalkTasks * HumanoidRobot),
    fst (fold_left
           (refine_body update_tasks_from_trajectory update_kinematics solve
              false dt traj tm) ks w)
    = fold_left
        (fun tk k => update_tasks_from_trajectory traj (sample_time tm k) tk)
        ks (fst w).
Proof.
  induction ks as [|k ks IH]; intros w; [reflexivity|].
  cbn [fold_left]. rewrite IH. reflexivity.
Qed.

(** X6.  A pass entered with the fault flag clear sets the task targets
    ten times, from the trajectory it started with (a replan of the
    same pass comes too late) at the ten sample times, whatever the
    mode, the robot and the contacts, and also when the pass itself
    ends with the flag set: a fault freezes the targets from the next
    pass on. *)
Theorem unfrozen_pass_updates_targets (m : mode) (inp : sensed)
  (s s' : state) :
  petage_de_gueule s = false ->
  snd (tick m inp s) = Ok s' ->
  tasks s'
  = fold_left
      (fun tk k =>
         update_tasks_from_trajectory (trajectory s) (sample_time (t s) k) tk)
      (seq 0 REFINE) (tasks s).
Proof.
  intros Hf Hok.
  destruct (with_loop (@WalkProps.tick_ok) m inp s s' Hok)
    as (_ & _ & _ & Tk & _).
  assert (W : (tasks (before_actuate s), robot (before_actuate s))
              = refine_loop false (solver_dt s) (trajectory s) (t s)
                  (tasks s, robot s)).
  { rewrite <- Hf. apply (with_plan (@WalkProps.before_actuate_solver)). }
  apply (f_equal fst) in W. cbn [fst] in W. rewrite Tk, W.
  unfold Walk.refine_loop. apply refine_unfrozen_tasks.
Qed.

End Facts.

(** *** The statements at work on the stand-in *)

Local Abbreviation on_bench thm :=
  (thm Bench.update_tasks_from_trajectory Bench.update_kinematics Bench.solve
     Bench.get_joint Bench.parameters_dt Bench.can_replan_supports
     Bench.replan_supports Bench.replan Bench.sim_joints).

Lemma run_never_raises_witness :
  exists s',
    Bench.run ArgMujoco [Bench.airborne; Bench.standing] Bench.fallen = Ok s'
    /\ t s' = 3 + DT + DT.
Proof.
  destruct (on_bench run_never_raises ArgMujoco
              [Bench.airborne; Bench.standing] Bench.fallen eq_refl)
    as (s' & R & _ & T & _).
  exists s'. split; [exact R|exact T].
Defined.

Lemma viewer_modes_change_nothing_witness :
  exists s',
    Bench.run ArgMeshcat [Bench.airborne; Bench.airborne] (Bench.start ArgMeshcat)
    = Ok s'
    /\ petage_de_gueule s' = false
    /\ repetitive_footsteps_planner s'
       = {| step_dx := 0.1; step_dy := 0; step_dtheta := 0; step_count := 5 |}.
Proof.
  destruct (on_bench viewer_modes_change_nothing ArgMeshcat (or_intror eq_refl)
              [Bench.airborne; Bench.airborne] (Bench.start ArgMeshcat) eq_refl)
    as (s' & R & F & _ & _ & P & _).
  exists s'. split; [exact R|]. split; [exact F|exact P].
Defined.

Lemma fault_flag_counts_passes_witness :
  exists s',
    Bench.run ArgMujoco
      (repeat Bench.airborne 30 ++ [Bench.standing] ++ repeat Bench.airborne 18
       ++ [Bench.airborne])
      (Bench.start ArgMujoco)
    = Ok s'
    /\ petage_de_gueule s' = false
    /\ timer LeftFoot s' = Some (ramp 20).
Proof.
  destruct (on_bench fault_flag_counts_passes
              (repeat Bench.airborne 30 ++ [Bench.standing]
               ++ repeat Bench.airborne 18)
              Bench.airborne (Bench.start ArgMujoco) eq_refl eq_refl)
    as (s' & R & L & _ & F).
  - apply Nat.leb_le. vm_compute. reflexivity.
  - exists s'. rewrite <- !app_assoc in R.
    split; [exact R|]. split; [rewrite F|rewrite L]; reflexivity.
Defined.

Lemma unfrozen_pass_updates_targets_witness :
  exists s',
    snd (Bench.tick ArgMujoco Bench.airborne (Bench.start ArgMujoco)) = Ok s'
    /\ length (tasks s') = 10%nat.
Proof.
  eexists. split; [reflexivity|].
  rewrite (on_bench unfrozen_pass_updates_targets ArgMujoco Bench.airborne
             (Bench.start ArgMujoco) _ eq_refl eq_refl).
  reflexivity.
Defined.

End LoopProps.

(** * [ImuDelaySimulator] as [get_obs] uses it *)

Module FeedProps.
Import ImuDelay Amp.

Lemma holding_push d first q r a tm :
  push r a tm (holding d first q) = holding d first (q ++ [(r, a)]).
Proof. unfold holding, push; cbn. rewrite !map_app. reflexivity. Qed.

Lemma holding_get_early d first q now :
  too_early now first d = true ->
  get now (holding d first q) = Returned zeroed (holding d first q).
Proof. intros H. unfold get, holding; cbn [t0 delay_ms]. rewrite H. reflexivity. Qed.

Lemma holding_get_open d first x q now :
  too_early now first d = false ->
  get now (holding d first (x :: q)) = Returned x (holding d first q).
Proof.
  intros H. unfold get, holding; cbn [t0 delay_ms rot ang_rot map].
  rewrite H. destruct x; reflexivity.
Qed.

(** From a simulator that holds the queue [q]: every use returns, the
    queue grows by the withheld uses, and what came through followed by
    what is queued is the old queue followed by what was pushed. *)
Lemma feed_holding d first :
  forall uses q,
    exists outs q',
      feed uses (holding d first q) = (outs, Returned tt (holding d first q'))
      /\ length outs = length uses
      /\ length q' = (length q + withheld d first uses)%nat
      /\ let_through d first uses outs ++ q' = q ++ pushed_pairs uses.
Proof.
  induction uses as [|[[r a] [tp tg]] rest IH]; intros q.
  - exists [], q. cbn. rewrite app_nil_r. repeat split; lia.
  - cbn [feed]. unfold push_get. rewrite holding_push.
    unfold withheld, let_through, pushed_pairs. cbn [filter map snd fst].
    destruct (too_early tg first d) eqn:G.
    + rewrite holding_get_early by exact G.
      destruct (IH (q ++ [(r, a)])) as (outs & q' & E & Ho & Hq & Hp).
      rewrite E. exists (zeroed :: outs), q'.
      split; [reflexivity|]. cbn [length combine filter fst snd].
      rewrite G. cbn [negb]. rewrite length_app in Hq. cbn [length] in *.
      split; [lia|]. split; [unfold withheld in Hq; lia|].
      unfold let_through, pushed_pairs in Hp. rewrite Hp, <- app_assoc.
      reflexivity.
    + destruct (q ++ [(r, a)]) as [|x q1] eqn:Q;
        [destruct q; discriminate|].
      rewrite holding_get_open by exact G.
      destruct (IH q1) as (outs & q' & E & Ho & Hq & Hp).
      rewrite E. exists (x :: outs), q'.
      split; [reflexivity|]. cbn [length combine filter fst snd].
      rewrite G. cbn [negb map snd].
      assert (Hl : length (x :: q1) = (length q + 1)%nat)
        by (rewrite <- Q, length_app; reflexivity).
      cbn [length] in *.
      split; [lia|]. split; [unfold withheld in Hq; lia|].
      unfold let_through, pushed_pairs in Hp. cbn [app].
      rewrite Hp. change (x :: q1 ++ map fst rest)
        with ((x :: q1) ++ map fst rest).
      rewrite <- Q, <- app_assoc. reflexivity.
Qed.

(** X7.  [get_obs]'s use of the simulator, a [push] followed by a [get],
    repeated on a fresh simulator: no [get] ever raises; the pairs
    that come through an open gate, followed by the pairs left in the
    queue, are the pushed pairs in push order; and the queue ends as
    long as the number of uses that found the gate closed.  So each
    pair let through lags its push by that many uses. *)
Theorem feed_never_raises_and_lags
  (d : float) (r a : value) (tp tg : float)
  (rest : list (value * value * (float * float))) :
  let uses := (r, a, (tp, tg)) :: rest in
  exists outs s',
    feed uses (init d) = (outs, Returned tt s')
    /\ length outs = length uses
    /\ t0 s' = Some tp
    /\ length (queue s') = withheld d tp uses
    /\ let_through d tp uses outs ++ queue s' = pushed_pairs uses.
Proof.
  intros uses. subst uses. cbn [feed]. unfold push_get.
  change (push r a tp (init d)) with (holding d tp [(r, a)]).
  unfold withheld, let_through, pushed_pairs. cbn [filter map fst snd].
  assert (Hqueue : forall q, queue (holding d tp q) = q).
  { intros q. unfold queue, holding; cbn [rot ang_rot].
    induction q as [|[x y] q IHq]; cbn; [reflexivity|]. rewrite IHq.
    reflexivity. }
  destruct (too_early tg tp d) eqn:G.
  - rewrite holding_get_early by exact G.
    destruct (feed_holding d tp rest [(r, a)]) as (outs & q' & E & Ho & Hq & Hp).
    rewrite E. exists (zeroed :: outs), (holding d tp q').
    split; [reflexivity|]. cbn [length combine filter fst snd].
    rewrite G, Hqueue. cbn [negb length] in *.
    split; [lia|]. split; [reflexivity|].
    split; [unfold withheld in Hq; lia|exact Hp].
  - rewrite holding_get_open by exact G.
    destruct (feed_holding d tp rest []) as (outs & q' & E & Ho & Hq & Hp).
    rewrite E. exists ((r, a) :: outs), (holding d tp q').
    split; [reflexivity|]. cbn [length combine filter fst snd].
    rewrite G, Hqueue. cbn [negb length map snd] in *.
    split; [lia|]. split; [reflexivity|].
    split; [unfold withheld in Hq; lia|].
    cbn [app]. f_equal. exact Hp.
Qed.

Lemma sound_exec :
  forall cs j s,
    sound s ->
    sound (left_behind (snd (exec cs j s)))
    /\ match snd (exec cs j s) with
       | Returned _ _ => True
       | Raised e s' =>
           rot s' = [] /\ ang_rot s' = []
           /\ (e = TypeError /\ t0 s' = None
               \/ e = IndexError /\ t0 s' <> None)
       end.
Proof.
  induction cs as [|c cs IH]; intros j s Hs; [split; [exact Hs|exact I]|].
  destruct c as [r a tm|now]; cbn [exec].
  - apply IH. destruct Hs as [Hlen _]. split; cbn.
    + rewrite !length_app, Hlen. reflexivity.
    + destruct (t0 s); discriminate.
  - unfold get, is_too_early. destruct Hs as [Hlen Hnone].
    destruct (t0 s) as [first|] eqn:Ht.
    + destruct (too_early now first (delay_ms s)).
      * apply IH. split; [exact Hlen|]. rewrite Ht. discriminate.
      * destruct (rot s) as [|r rs] eqn:Hr.
        -- destruct (ang_rot s) as [|a az] eqn:Ha; [|discriminate].
           cbn [snd left_behind]. unfold sound. rewrite Hr, Ha, Ht.
           repeat split; auto. right. split; [reflexivity|discriminate].
        -- destruct (ang_rot s) as [|a az] eqn:Ha; [discriminate|].
           apply IH. split; cbn; [cbn in Hlen; lia|]. rewrite ?Ht. discriminate.
    + cbn [snd left_behind]. specialize (Hnone eq_refl).
      rewrite Hnone in Hlen. destruct (ang_rot s) eqn:Ha; [|discriminate].
      unfold sound. rewrite Hnone, Ha, Ht. repeat split; auto.
Qed.

(** X8.  Whatever calls are made on a fresh simulator, its two lists keep
    one length, and a [get] that raises finds and leaves both lists
    empty: it raises [TypeError] while nothing was ever pushed and
    [IndexError] once something was.  A failing call never drops a
    queued pair. *)
Theorem failing_get_loses_nothing (d : float) (cs : list call) :
  let done := exec cs (mkJournal [] []) (init d) in
  length (rot (left_behind (snd done)))
  = length (ang_rot (left_behind (snd done)))
  /\ match snd done with
     | Returned _ _ => True
     | Raised e s' =>
         rot s' = [] /\ ang_rot s' = []
         /\ pushed (fst done) = popped (fst done)
         /\ (e = TypeError /\ t0 s' = None
             \/ e = IndexError /\ t0 s' <> None)
     end.
Proof.
  intros done. subst done.
  assert (Hs : sound (init d)) by (split; reflexivity).
  destruct (sound_exec cs (mkJournal [] []) (init d) Hs) as [[Hlen _] Hr].
  split; [exact Hlen|].
  pose proof (DelayProps.exec_aligned cs (mkJournal [] []) (init d)
                ltac:(split; reflexivity)) as [_ Hq].
  destruct (snd (exec cs (mkJournal [] []) (init d))) as [u s'|e s'];
    [exact I|].
  destruct Hr as (R & A & Hcase). repeat split; auto.
  cbn [left_behind] in Hq. unfold queue in Hq. rewrite R in Hq. cbn in Hq.
  rewrite app_nil_r in Hq. exact Hq.
Qed.

Lemma exec_keeps_t0 :
  forall cs j s first,
    t0 s = Some first ->
    t0 (left_behind (snd (exec cs j s))) = Some first
    /\ delay_ms (left_behind (snd (exec cs j s))) = delay_ms s.
Proof.
  induction cs as [|c cs IH]; intros j s first Ht; [split; [exact Ht|reflexivity]|].
  destruct c as [r a tm|now]; cbn [exec].
  - destruct (IH {| pushed := pushed j ++ [(r, a)]; popped := popped j |}
                (push r a tm s) first) as [A B];
      [cbn; rewrite Ht; reflexivity|]. split; [exact A|exact B].
  - unfold get, is_too_early. rewrite Ht.
    destruct (too_early now first (delay_ms s)); [apply IH, Ht|].
    destruct (rot s) as [|r rs]; [split; [exact Ht|reflexivity]|].
    destruct (ang_rot s) as [|a az]; [split; reflexivity|].
    match goal with
    | |- context [exec cs ?j1 ?s1] =>
        destruct (IH j1 s1 first eq_refl) as [A B]
    end.
    split; [exact A|exact B].
Qed.

(** X9.  The timestamp the gate is measured from is set by the first
    [push] and by nothing else: whatever calls follow, also when they
    empty the queue or raise, [t0] stays the first timestamp and
    [delay_ms] the delay the simulator was made with. *)
Theorem first_timestamp_is_kept
  (d : float) (r a : value) (tm : float) (cs : list call) :
  let done := exec (Push r a tm :: cs) (mkJournal [] []) (init d) in
  t0 (left_behind (snd done)) = Some tm
  /\ delay_ms (left_behind (snd done)) = d.
Proof.
  intros done. subst done. cbn [exec].
  apply (exec_keeps_t0 cs _ (push r a tm (init d)) tm). reflexivity.
Qed.

End FeedProps.

(** * The control loop of onnx_AMP_mujoco.py *)

Module AmpProps.
Import ImuDelay Amp.

Section Facts.

Context {MjData : Type}.
Variable data_time : MjData -> float.
Variable imu_reading : MjData -> value * value.
Variable isaac_dof_pos_scaled : MjData -> list float.
Variable isaac_dof_vel_scaled : MjData -> list float.
Variable mj_step : MjData -> MjData.
Variable set_ctrl : list float -> MjData -> MjData.
Variable ctrl : MjData -> list float.
Variable qpos_joints : MjData -> list float.
Variable policy_infer : list float -> list float.
Variable np_clip : float * float -> list float -> list float.
Variable np_add : list float -> list float -> list float.
Variable isaac_init_pos : list float.
Variable isaac_to_mujoco : list float -> list float.

Local Abbreviation get_obs :=
  (get_obs imu_reading isaac_dof_pos_scaled isaac_dof_vel_scaled).
Local Abbreviation control :=
  (control imu_reading isaac_dof_pos_scaled isaac_dof_vel_scaled set_ctrl
     ctrl qpos_joints policy_infer np_clip np_add isaac_init_pos
     isaac_to_mujoco).
Local Abbreviation pass :=
  (pass data_time imu_reading isaac_dof_pos_scaled isaac_dof_vel_scaled
     mj_step set_ctrl ctrl qpos_joints policy_infer np_clip np_add
     isaac_init_pos isaac_to_mujoco).
Local Abbreviation passes :=
  (passes data_time imu_reading isaac_dof_pos_scaled isaac_dof_vel_scaled
     mj_step set_ctrl ctrl qpos_joints policy_infer np_clip np_add
     isaac_init_pos isaac_to_mujoco).
Local Abbreviation step_physics := (step_physics mj_step).

Lemma push_get_returns (r a : value) (tp tg : float) (s : ImuDelaySimulator) :
  exists v s1,
    push_get r a tp tg s = Returned v s1
    /\ (length (rot s) = length (ang_rot s) ->
        length (rot s1) = length (ang_rot s1)).
Proof.
  unfold push_get, get, push. cbn [t0 delay_ms rot ang_rot].
  destruct (t0 s) as [first|];
    match goal with
    | |- context [too_early ?x ?y ?z] => destruct (too_early x y z)
    end;
    try (eexists; eexists; split; [reflexivity|]; cbn;
         rewrite !length_app; cbn; lia);
    (destruct (rot s ++ [r]) as [|x xs] eqn:R;
       [destruct (rot s); discriminate|]);
    (destruct (ang_rot s ++ [a]) as [|y ys] eqn:A;
       [destruct (ang_rot s); discriminate|]);
    eexists; eexists; (split; [reflexivity|]); cbn; intros H;
    apply (f_equal (@length _)) in R; apply (f_equal (@length _)) in A;
    rewrite length_app in R, A; cbn in R, A; lia.
Qed.

Lemma get_obs_returns (d : MjData) (act cmds : list float) (tp tg : float)
  (sim : ImuDelaySimulator) :
  exists obs sim1,
    get_obs d act cmds tp tg sim = Returned obs sim1
    /\ (length (rot sim) = length (ang_rot sim) ->
        length (rot sim1) = length (ang_rot sim1)).
Proof.
  unfold Amp.get_obs. destruct (imu_reading d) as [q w].
  destruct (push_get_returns q w tp tg sim) as ([q1 w1] & sim1 & E & H).
  rewrite E. eauto.
Qed.

Lemma item_ok {A : Type} (l : list A) (k : nat) (x : A) :
  item l k = Ok x -> k < length l.
Proof.
  unfold item. destruct (nth_error l k) eqn:E; [|discriminate].
  intros _. apply nth_error_Some. congruence.
Qed.

Lemma item_raise {A : Type} (l : list A) (k : nat) (e : exn) :
  item l k = Raise e -> e = IndexError /\ nth_error l k = None.
Proof.
  unfold item. destruct (nth_error l k); [discriminate|].
  intros H; inversion H; auto.
Qed.

(** One control step from globals that are in step. *)
Lemma control_in_step (opts : replay) (tp tg tm : float) (s : loop MjData) :
  in_step s ->
  match control opts tp tg tm s with
  | Running s' =>
      in_step s' /\ i s' = S (i s)
      /\ (forall l, saved_obs opts = Some l -> i s < length l)
  | Crashed e s' =>
      e = IndexError /\ i s' = i s
      /\ length (mujoco_saved_obs s') = S (i s)
      /\ length (mujoco_saved_actions s') = i s
      /\ length (command_value s') = i s
      /\ exhausted opts (i s)
  end.
Proof.
  intros (Ho & Ha & Hc & Hs). unfold Amp.control.
  destruct (get_obs_returns (data s) (prev_isaac_action s) commands tp tg
              (imu_delay_simulator s)) as (obs & sim1 & E & Hs1).
  rewrite E.
  destruct (match saved_obs opts with
            | Some l => item l (i s)
            | None => Ok obs
            end) as [obs1|e] eqn:Eo.
  - destruct (match saved_actions opts with
              | Some l => row <- item l (i s);; item row 0
              | None => Ok (policy_infer (np_clip obs_clip obs1))
              end) as [act|e] eqn:Ea.
    + unfold in_step. cbn. rewrite !length_app, Ho, Ha, Hc. cbn.
      repeat split; try lia; auto.
      intros l Hl. rewrite Hl in Eo. apply (item_ok _ _ _ Eo).
    + cbn. rewrite length_app, Ho. cbn.
      destruct (saved_actions opts) as [l|] eqn:Sa; [|discriminate].
      assert (e = IndexError
              /\ (nth_error l (i s) = None \/ nth_error l (i s) = Some [])).
      { unfold bind in Ea. destruct (item l (i s)) as [row|e1] eqn:Er.
        - apply item_raise in Ea. destruct Ea as [-> Hn].
          split; [reflexivity|]. right.
          unfold item in Er. destruct (nth_error l (i s)); [|discriminate].
          inversion Er; subst. destruct row; [reflexivity|discriminate].
        - inversion Ea; subst. apply item_raise in Er. tauto. }
      repeat split; try lia; try tauto.
      right. exists l. tauto.
  - cbn. rewrite length_app, Ho. cbn.
    destruct (saved_obs opts) as [l|] eqn:So; [|discriminate].
    apply item_raise in Eo. destruct Eo as [-> Hn].
    repeat split; try lia.
    left. exists l. split; [exact So|]. apply nth_error_None. exact Hn.
Qed.

Lemma pass_in_step (opts : replay) (r : float * float) (s : loop MjData) :
  in_step s ->
  match pass opts r s with
  | Running s' =>
      in_step s' /\ i s <= i s' <= S (i s)
      /\ (forall l, saved_obs opts = Some l -> i s <= length l ->
                    i s' <= length l)
  | Crashed e s' =>
      e = IndexError /\ i s' = i s
      /\ length (mujoco_saved_obs s') = S (i s)
      /\ length (mujoco_saved_actions s') = i s
      /\ length (command_value s') = i s
      /\ exhausted opts (i s)
  end.
Proof.
  intros H. unfold Amp.pass.
  destruct (control_due (data_time (data s)) (last_control s)).
  - pose proof (control_in_step opts (fst r) (snd r) (data_time (data s)) s H)
      as C.
    destruct (control opts (fst r) (snd r) (data_time (data s)) s)
      as [s1|e s1]; [|exact C].
    destruct C as (I1 & Hi & Hl). unfold in_step in *. cbn.
    repeat split; try tauto; try lia.
    intros l Sl _. specialize (Hl l Sl). lia.
  - unfold in_step in *. cbn. repeat split; try tauto; lia.
Qed.

Lemma logs_stay_in_step_aux (opts : replay) :
  forall (rs : list (float * float)) (s : loop MjData),
    in_step s ->
    match passes opts rs s with
    | Running s' => in_step s' /\ i s <= i s' <= i s + length rs
    | Crashed e s' =>
        e = IndexError
        /\ length (mujoco_saved_obs s') = S (i s')
        /\ length (mujoco_saved_actions s') = i s'
        /\ length (command_value s') = i s'
        /\ exhausted opts (i s')
    end.
Proof.
  induction rs as [|r rest IH]; intros s H.
  - cbn. split; [exact H|lia].
  - cbn [Amp.passes]. pose proof (pass_in_step opts r s H) as P.
    destruct (pass opts r s) as [s1|e s1].
    + destruct P as (H1 & Hi & _). specialize (IH s1 H1).
      destruct (passes opts rest s1) as [s2|e s2]; [|exact IH].
      cbn [length]. split; [tauto|lia].
    + destruct P as (-> & Hi & Ho & Ha & Hc & Hx). rewrite Hi. tauto.
Qed.

(** X10.  The three logs [mujoco_saved_obs], [mujoco_saved_actions] and
    [command_value] hold one entry per control step done ([i]) at the
    end of every pass, and no pass does more than one control step.
    If the loop dies, it dies of [IndexError] in a control step for
    which the replay lists have no entry, with the observation of that
    step already logged and nothing else: the observation log is then
    one entry longer than the other two. *)
Theorem logs_stay_in_step (opts : replay) :
  forall (rs : list (float * float)) (s : loop MjData),
    in_step s ->
    match passes opts rs s with
    | Running s' => in_step s' /\ i s <= i s' <= i s + length rs
    | Crashed e s' =>
        e = IndexError
        /\ length (mujoco_saved_obs s') = S (i s')
        /\ length (mujoco_saved_actions s') = i s'
        /\ length (command_value s') = i s'
        /\ exhausted opts (i s')
    end.
Proof. exact (logs_stay_in_step_aux opts). Qed.

(** X11.  Without [--saved_obs] and [--saved_actions] no pass of the loop
    raises: the simulator is always pushed to before it is read. *)
Theorem live_loop_never_dies (opts : replay) :
  saved_obs opts = None ->
  saved_actions opts = None ->
  forall (rs : list (float * float)) (s : loop MjData),
    in_step s ->
    exists s', passes opts rs s = Running s' /\ in_step s'.
Proof.
  intros So Sa rs s H.
  pose proof (logs_stay_in_step_aux opts rs s H) as P.
  destruct (passes opts rs s) as [s'|e s'].
  - exists s'. tauto.
  - destruct P as (_ & _ & _ & _ & [(l & Hl & _)|(l & Hl & _)]); congruence.
Qed.

(** X12.  With [--saved_obs] holding [n] observations (and no
    [--saved_actions]), the loop does at most [n] control steps; when
    it dies, it dies of [IndexError] at control step [n], with [n + 1]
    observations and [n] actions logged. *)
Theorem replay_runs_out (opts : replay) (l : list (list float)) :
  saved_obs opts = Some l ->
  saved_actions opts = None ->
  forall (rs : list (float * float)) (s : loop MjData),
    in_step s ->
    i s <= length l ->
    match passes opts rs s with
    | Running s' => in_step s' /\ i s' <= length l
    | Crashed e s' =>
        e = IndexError /\ i s' = length l
        /\ length (mujoco_saved_obs s') = S (length l)
        /\ length (mujoco_saved_actions s') = length l
        /\ length (command_value s') = length l
    end.
Proof.
  intros So Sa. induction rs as [|r rest IH]; intros s H Hi.
  - cbn. tauto.
  - cbn [Amp.passes]. pose proof (pass_in_step opts r s H) as P.
    destruct (pass opts r s) as [s1|e s1].
    + destruct P as (H1 & _ & Hl). apply (IH s1 H1). apply (Hl l So Hi).
    + destruct P as (-> & Hi' & Ho & Ha & Hc & Hx).
      assert (Hn : length l <= i s).
      { destruct Hx as [(l' & Hl' & Hlen)|(l' & Hl' & _)]; [|congruence].
        rewrite So in Hl'. inversion Hl'; subst. exact Hlen. }
      assert (i s = length l) by lia.
      rewrite Hi', Ho, Ha, Hc. repeat split; congruence.
Qed.

End Facts.

(** *** The statements at work on the stand-in *)

Local Abbreviation on_amp thm :=
  (thm AmpBench.data_time AmpBench.imu_reading AmpBench.isaac_dof_pos_scaled
     AmpBench.isaac_dof_vel_scaled AmpBench.mj_step AmpBench.set_ctrl
     AmpBench.ctrl AmpBench.qpos_joints AmpBench.policy_infer AmpBench.np_clip
     AmpBench.np_add AmpBench.isaac_init_pos AmpBench.isaac_to_mujoco).

Lemma entry_in_step : in_step AmpBench.entry.
Proof. repeat split. Qed.

Lemma logs_stay_in_step_witness :
  match AmpBench.passes AmpBench.one_obs (repeat (1000, 1000.5) 9)
          AmpBench.entry with
  | Running s' => in_step s' /\ 0 <= i s' <= 0 + 9
  | Crashed e s' =>
      e = IndexError
      /\ length (mujoco_saved_obs s') = S (i s')
      /\ length (mujoco_saved_actions s') = i s'
      /\ length (command_value s') = i s'
      /\ exhausted AmpBench.one_obs (i s')
  end.
Proof.
  apply (on_amp logs_stay_in_step AmpBench.one_obs (repeat (1000, 1000.5) 9)
           AmpBench.entry).
  repeat split.
Defined.

Lemma live_loop_never_dies_witness :
  exists s',
    AmpBench.passes AmpBench.live (repeat (1000, 1000.5) 20) AmpBench.entry
    = Running s'
    /\ in_step s'.
Proof.
  apply (on_amp live_loop_never_dies AmpBench.live eq_refl eq_refl).
  repeat split.
Defined.

Lemma replay_runs_out_witness :
  match AmpBench.passes AmpBench.one_obs (repeat (1000, 1000.5) 9)
          AmpBench.entry with
  | Running s' => in_step s' /\ i s' <= 1
  | Crashed e s' =>
      e = IndexError /\ i s' = 1%nat
      /\ length (mujoco_saved_obs s') = 2%nat
      /\ length (mujoco_saved_actions s') = 1%nat
      /\ length (command_value s') = 1%nat
  end.
Proof.
  apply (on_amp replay_runs_out AmpBench.one_obs [repeat 0 55] eq_refl eq_refl
           (repeat (1000, 1000.5) 9) AmpBench.entry).
  - repeat split.
  - cbn. lia.
Defined.

(** On the stand-in the replay of one observation does die, at the
    second control step (the ninth pass). *)
Lemma replay_of_one_dies_in_pass_9 :
  match AmpBench.passes AmpBench.one_obs (repeat (1000, 1000.5) 9)
          AmpBench.entry with
  | Running _ => False
  | Crashed e s' => e = IndexError /\ i s' = 1%nat
  end.
Proof. vm_compute. split; reflexivity. Qed.

End AmpProps.

(** * Pieces of [BDXEnv] *)

Module EnvProps.
Import Env.

(** *** The control history *)

Lemma last_items_length {A : Type} (n : nat) (l : list A) :
  length (last_items n l) = Nat.min n (length l).
Proof. unfold last_items. rewrite length_skipn. lia. Qed.

Lemma last_items_snoc {A : Type} (n : nat) (l : list A) (x : A) :
  (1 <= n)%nat ->
  last_items n (last_items n l ++ [x]) = last_items n (l ++ [x]).
Proof.
  intros Hn. unfold last_items.
  assert (E : skipn (length l - n) l ++ [x] = skipn (length l - n) (l ++ [x])).
  { rewrite skipn_app.
    replace (length l - n - length l)%nat with 0%nat by lia. reflexivity. }
  rewrite E, skipn_skipn, length_skipn, !length_app. cbn [length].
  f_equal. lia.
Qed.

Lemma record_all (cs : list (list float)) :
  forall h,
    (length h <= joint_history_length)%nat ->
    fold_left record_ctrl cs h = last_items joint_history_length (h ++ cs).
Proof.
  induction cs as [|c cs IH]; intros h Hh.
  - cbn. rewrite app_nil_r. unfold last_items.
    replace (length h - joint_history_length)%nat with 0%nat by lia.
    reflexivity.
  - cbn [fold_left]. rewrite IH.
    + unfold record_ctrl.
      replace (h ++ c :: cs) with ((h ++ [c]) ++ cs)
        by (rewrite <- app_assoc; reflexivity).
      generalize (h ++ [c]). intros l. clear.
      induction cs as [|x cs IH] using rev_ind.
      * rewrite !app_nil_r. unfold last_items at 1.
        rewrite last_items_length.
        replace (Nat.min joint_history_length (length l)
                 - joint_history_length)%nat with 0%nat by lia.
        reflexivity.
      * rewrite !app_assoc.
        rewrite <- (last_items_snoc joint_history_length
                      (last_items joint_history_length l ++ cs) x)
          by (unfold joint_history_length; lia).
        rewrite IH. apply last_items_snoc. unfold joint_history_length; lia.
    + unfold record_ctrl. rewrite last_items_length. lia.
Qed.

(** X13.  The control history that [_get_obs] keeps has three items from
    [__init__] and [reset_model] on, so reading items 0, 1 and 2 never
    raises; it holds the last three controls oldest first.  After
    three observations or more, item 0, which [smoothness_reward]
    names [t0] and [action_LFP] names [action_tminus1], is the oldest
    of the three and item 2 the newest. *)
Theorem history_holds_last_three (cs : list (list float)) :
  let h := fold_left record_ctrl cs fresh_history in
  length h = 3%nat
  /\ h = last_items 3 (fresh_history ++ cs)
  /\ (forall older a b c,
        cs = older ++ [a; b; c] ->
        h = [a; b; c]
        /\ entry h 0 = Ok a /\ entry h 1 = Ok b /\ entry h 2 = Ok c).
Proof.
  intros h. subst h.
  rewrite (record_all cs fresh_history) by (apply Nat.leb_le; reflexivity).
  split; [|split].
  - rewrite last_items_length, length_app.
    unfold fresh_history, joint_history_length. rewrite repeat_length. lia.
  - reflexivity.
  - intros older a b c ->.
    assert (E : last_items joint_history_length
                  (fresh_history ++ older ++ [a; b; c]) = [a; b; c]).
    { unfold last_items. rewrite app_assoc, skipn_app, !length_app.
      cbn [length].
      replace (length fresh_history + length older + 3
               - joint_history_length)%nat
        with (length (fresh_history ++ older))
        by (rewrite length_app; unfold joint_history_length; lia).
      rewrite skipn_all, Nat.sub_diag. reflexivity. }
    rewrite E. repeat split.
Qed.

Lemma history_holds_last_three_witness :
  fold_left record_ctrl [[0.1]; [0.2]; [0.3]; [0.4]] fresh_history
  = [[0.2]; [0.3]; [0.4]]
  /\ entry (fold_left record_ctrl [[0.1]; [0.2]; [0.3]; [0.4]] fresh_history) 0
     = Ok [0.2].
Proof.
  destruct (history_holds_last_three [[0.1]; [0.2]; [0.3]; [0.4]])
    as (_ & _ & H).
  destruct (H [[0.1]] [0.2] [0.3] [0.4] eq_refl) as (A & B & _).
  split; [exact A|exact B].
Defined.

(** *** The start-up gate of [step] *)

Lemma step_gates_live (tms : list float) :
  forall g,
    (0 <? startup_cooldown g) = false ->
    fst (step_gates tms g) = repeat true (length tms)
    /\ startup_cooldown (snd (step_gates tms g)) = startup_cooldown g.
Proof.
  induction tms as [|tm rest IH]; intros g H; [split; reflexivity|].
  cbn [step_gates]. unfold step_gate. rewrite H. cbn [negb].
  destruct (IH {| prev_t := tm; startup_cooldown := startup_cooldown g |} H)
    as [A B].
  destruct (step_gates rest _) as [useds g2]. cbn [fst snd] in *.
  cbn [length repeat]. rewrite A, H. split; [reflexivity|exact B].
Qed.

(** X14.  Once a [step] has used the action, every later [step] uses it
    too, whatever the simulation times are, and [startup_cooldown] no
    longer changes: only [reset_model] starts the cool-down again. *)
Theorem cooldown_never_restarts (tm : float) (g : gate) (tms : list float) :
  fst (step_gate tm g) = true ->
  fst (step_gates tms (snd (step_gate tm g))) = repeat true (length tms)
  /\ startup_cooldown (snd (step_gates tms (snd (step_gate tm g))))
     = startup_cooldown (snd (step_gate tm g)).
Proof.
  intros H. apply step_gates_live.
  unfold step_gate in *. cbn [fst snd startup_cooldown] in *.
  apply negb_true_iff in H. exact H.
Qed.

Lemma cooldown_never_restarts_witness :
  fst (step_gates [1.004; 0.2]
         (snd (step_gate 1.002 {| prev_t := 0.5; startup_cooldown := 0.5 |})))
  = [true; true]
  /\ startup_cooldown
       (snd (step_gates [1.004; 0.2]
               (snd (step_gate 1.002
                       {| prev_t := 0.5; startup_cooldown := 0.5 |}))))
     = 0.5 - (1.002 - 0.5).
Proof.
  apply (cooldown_never_restarts 1.002
           {| prev_t := 0.5; startup_cooldown := 0.5 |} [1.004; 0.2]).
  reflexivity.
Defined.

(** *** [check_contact] *)

(** X15.  [check_contact] does not depend on the order of the two bodies,
    and it is true exactly when one of the contacts joins a geom of
    the one body with a geom of the other; with no contact it is
    false. *)
Theorem check_contact_joins (geom_bodyid : nat -> Z)
  (contacts : list (nat * nat)) (body1_id body2_id : Z) :
  check_contact geom_bodyid contacts body1_id body2_id
  = check_contact geom_bodyid contacts body2_id body1_id
  /\ (check_contact geom_bodyid contacts body1_id body2_id = true
      <-> exists contact,
            In contact contacts
            /\ (geom_bodyid (fst contact) = body1_id
                /\ geom_bodyid (snd contact) = body2_id
                \/ geom_bodyid (fst contact) = body2_id
                   /\ geom_bodyid (snd contact) = body1_id)).
Proof.
  split.
  - induction contacts as [|c rest IH]; [reflexivity|].
    cbn [check_contact]. rewrite IH, orb_comm. reflexivity.
  - induction contacts as [|c rest IH]; cbn [check_contact].
    + split; [discriminate|]. intros (c & [] & _).
    + destruct (((geom_bodyid (fst c) =? body1_id)%Z
                 && (geom_bodyid (snd c) =? body2_id)%Z)
                || ((geom_bodyid (fst c) =? body2_id)%Z
                    && (geom_bodyid (snd c) =? body1_id)%Z)) eqn:E.
      * split; [|reflexivity]. intros _. exists c. split; [left; reflexivity|].
        apply orb_true_iff in E.
        rewrite !andb_true_iff, !Z.eqb_eq in E. exact E.
      * rewrite IH. split.
        -- intros (c' & Hin & Hj). exists c'. split; [right; exact Hin|exact Hj].
        -- intros (c' & [<-|Hin] & Hj); [|exists c'; tauto].
           apply orb_false_iff in E. rewrite !andb_false_iff in E.
           rewrite <- !Z.eqb_eq in Hj.
           destruct E as [E1 E2], Hj as [[H1 H2]|[H1 H2]];
             rewrite H1, H2 in *; intuition discriminate.
Qed.

(** *** The cap of [action_reward] *)

Lemma SFcompare_antisym (f1 f2 : SpecFloat.spec_float) :
  SpecFloat.SFcompare f2 f1 = option_map CompOpp (SpecFloat.SFcompare f1 f2).
Proof.
  destruct f1 as [s1|s1| |s1 m1 e1], f2 as [s2|s2| |s2 m2 e2]; cbn;
    try reflexivity; try (destruct s1; reflexivity);
    try (destruct s2; reflexivity);
    try (destruct s1, s2; reflexivity).
  pose proof (Pos.compare_cont_antisym m1 m2 Eq) as H. cbn in H.
  change (Pos.compare_cont Eq m1 m2) with (PosDef.Pos.compare_cont Eq m1 m2) in H.
  change (Pos.compare_cont Eq m2 m1) with (PosDef.Pos.compare_cont Eq m2 m1) in H.
  destruct s1, s2; try reflexivity;
    rewrite (Z.compare_antisym e1 e2); destruct (e1 ?= e2)%Z; cbn;
    try reflexivity; f_equal; rewrite <- H; reflexivity.
Qed.

Lemma ltb_asym (x y : float) : (x <? y) = true -> (y <? x) = false.
Proof.
  rewrite !FloatAxioms.ltb_spec. unfold SpecFloat.SFltb.
  rewrite (SFcompare_antisym (Prim2SF x) (Prim2SF y)).
  destruct (SpecFloat.SFcompare (Prim2SF x) (Prim2SF y)) as [[| |]|];
    cbn; congruence.
Qed.

Lemma ltb_not_nan (x y : float) : (x <? y) = true -> PrimFloat.is_nan x = false.
Proof.
  unfold PrimFloat.is_nan.
  rewrite FloatAxioms.ltb_spec, FloatAxioms.eqb_spec.
  unfold SpecFloat.SFltb, SpecFloat.SFeqb.
  destruct (Prim2SF x) as [s|s| |s m e]; cbn; try discriminate;
    intros _; try reflexivity.
  - destruct s; reflexivity.
  - destruct s; rewrite Z.compare_refl, Pos.compare_cont_refl; reflexivity.
Qed.

(** X16.  [action_reward] is never above 2 and never NaN, whatever
    [np.exp] returns (infinity and NaN included): Python's [min(2, x)]
    keeps 2 unless [x < 2]. *)
Theorem action_reward_capped (np_exp : float -> float)
  (sum_diff nb_dofs : float) :
  (2 <? action_reward np_exp sum_diff nb_dofs) = false
  /\ PrimFloat.is_nan (action_reward np_exp sum_diff nb_dofs) = false.
Proof.
  unfold action_reward, min_2.
  destruct (np_exp (-5 * sum_diff / nb_dofs) <? 2) eqn:E.
  - split; [apply ltb_asym, E|apply (ltb_not_nan _ _ E)].
  - split; reflexivity.
Qed.

End EnvProps.

(** * The model choice of eval.py *)

Module EvalProps.
Import Eval.

#[local] Open Scope string_scope.

Lemma occurs_app (c : Ascii.ascii) (x y : string) :
  occurs c (x ++ y) = occurs c x || occurs c y.
Proof.
  induction x as [|a x IH]; [reflexivity|].
  cbn. destruct (Ascii.eqb a c); [reflexivity|exact IH].
Qed.

Lemma after_last_app (c : Ascii.ascii) (x y : string) :
  occurs c y = false -> after_last c (x ++ String c y) = y.
Proof.
  intros Hy. induction x as [|a x IH].
  - cbn. rewrite Hy, Ascii.eqb_refl. reflexivity.
  - cbn [append after_last]. rewrite occurs_app. cbn [occurs].
    rewrite Ascii.eqb_refl, orb_true_r. exact IH.
Qed.

Lemma after_last_none (c : Ascii.ascii) (x : string) :
  occurs c x = false -> after_last c x = x.
Proof.
  destruct x as [|a x]; [reflexivity|].
  cbn. destruct (Ascii.eqb a c); [discriminate|].
  intros H. rewrite H. reflexivity.
Qed.

Lemma append_assoc_string (x y z : string) : (x ++ y) ++ z = x ++ (y ++ z).
Proof. induction x as [|a x IH]; cbn; [reflexivity|]. rewrite IH. reflexivity. Qed.

Lemma length_app_string (x y : string) :
  String.length (x ++ y) = (String.length x + String.length y)%nat.
Proof. induction x as [|a x IH]; cbn; [reflexivity|]. rewrite IH. reflexivity. Qed.

Lemma substring_prefix (x y : string) :
  substring 0 (String.length x) (x ++ y) = x.
Proof.
  induction x as [|a x IH]; cbn.
  - destruct y; reflexivity.
  - rewrite IH. reflexivity.
Qed.

Lemma drop_last_suffix (x y : string) :
  drop_last (String.length y) (x ++ y) = x.
Proof.
  unfold drop_last. rewrite length_app_string.
  replace (String.length x + String.length y - String.length y)%nat
    with (String.length x) by lia.
  apply substring_prefix.
Qed.

(** X17.  For a path [dir/name_id.zip] whose [name] has no [/] and whose
    [id] has neither [/] nor [_], the text given to [int] is [id],
    whatever [dir] is. *)
Theorem model_id_text_of_path (dir name id : string) :
  occurs slash name = false ->
  occurs slash id = false ->
  occurs underscore id = false ->
  model_id_text (dir ++ "/" ++ name ++ "_" ++ id ++ ".zip") = id.
Proof.
  intros Hn Hs Hu. unfold model_id_text.
  change (dir ++ "/" ++ name ++ "_" ++ id ++ ".zip")
    with (dir ++ String slash (name ++ "_" ++ id ++ ".zip")).
  rewrite after_last_app.
  - replace (name ++ "_" ++ id ++ ".zip") with ((name ++ "_" ++ id) ++ ".zip").
    + rewrite drop_last_suffix.
      change (name ++ "_" ++ id) with (name ++ String underscore id).
      apply after_last_app, Hu.
    + rewrite append_assoc_string. reflexivity.
  - rewrite !occurs_app, Hn, Hs. reflexivity.
Qed.

Lemma model_id_text_of_path_witness :
  model_id_text "models/run_3/SAC_35000.zip" = "35000".
Proof.
  apply (model_id_text_of_path "models/run_3" "SAC" "35000"); reflexivity.
Defined.

Section Facts.

Variable py_int : string -> option Z.

Local Abbreviation scan := (scan py_int).
Local Abbreviation latest_model := (latest_model py_int).

Lemma scan_spec (paths : list string) :
  forall (b : Z) (bp : option string),
    match scan paths b bp with
    | None =>
        exists q, In q paths /\ py_int (model_id_text q) = None
    | Some (k, kp) =>
        (forall q, In q paths ->
                   exists j, py_int (model_id_text q) = Some j /\ (j <= k)%Z)
        /\ (b <= k)%Z
        /\ (k = b /\ kp = bp
            \/ (b < k)%Z
               /\ exists p, In p paths /\ kp = Some p
                            /\ py_int (model_id_text p) = Some k)
    end.
Proof.
  induction paths as [|p rest IH]; intros b bp; cbn [Eval.scan].
  - split; [intros q []|]. split; [lia|left; auto].
  - destruct (py_int (model_id_text p)) as [k0|] eqn:Ep;
      [|exists p; split; [left; reflexivity|exact Ep]].
    destruct (b <? k0)%Z eqn:Eb.
    + apply Z.ltb_lt in Eb. specialize (IH k0 (Some p)).
      destruct (scan rest k0 (Some p)) as [[k kp]|].
      * destruct IH as (Hall & Hk & Hcase). split; [|split; [lia|]].
        -- intros q [<-|Hq]; [exists k0; split; [exact Ep|exact Hk]|].
           apply Hall, Hq.
        -- right. split; [lia|].
           destruct Hcase as [[-> ->]|(_ & p' & Hin & -> & Hp')].
           ++ exists p. split; [left; reflexivity|]. split; [reflexivity|exact Ep].
           ++ exists p'. split; [right; exact Hin|]. split; [reflexivity|exact Hp'].
      * destruct IH as (q & Hq & Hn). exists q. split; [right; exact Hq|exact Hn].
    + apply Z.ltb_ge in Eb. specialize (IH b bp).
      destruct (scan rest b bp) as [[k kp]|].
      * destruct IH as (Hall & Hk & Hcase). split; [|split; [exact Hk|]].
        -- intros q [<-|Hq]; [exists k0; split; [exact Ep|lia]|].
           apply Hall, Hq.
        -- destruct Hcase as [H|(Hlt & p' & Hin & Hkp & Hp')]; [left; exact H|].
           right. split; [exact Hlt|]. exists p'.
           split; [right; exact Hin|]. split; [exact Hkp|exact Hp'].
      * destruct IH as (q & Hq & Hn). exists q. split; [right; exact Hq|exact Hn].
Qed.

(** X18.  Of the paths [glob] found, [test] loads one whose id is the
    greatest of all and above 0.  It reports that no models were found
    exactly when every id is 0 or below, also when the directory does
    hold such models; and [int] raises exactly when some name does not
    end in an integer. *)
Theorem latest_model_is_greatest (models_paths : list string) :
  match latest_model models_paths with
  | ValueError =>
      exists q, In q models_paths /\ py_int (model_id_text q) = None
  | NoModelsFound =>
      forall q, In q models_paths ->
                exists j, py_int (model_id_text q) = Some j /\ (j <= 0)%Z
  | Latest p =>
      exists k,
        In p models_paths
        /\ py_int (model_id_text p) = Some k
        /\ (0 < k)%Z
        /\ forall q, In q models_paths ->
                     exists j, py_int (model_id_text q) = Some j /\ (j <= k)%Z
  end.
Proof.
  unfold Eval.latest_model. pose proof (scan_spec models_paths 0 None) as H.
  destruct (scan models_paths 0 None) as [[k [p|]]|].
  - destruct H as (Hall & Hk & [[_ Hp]|(Hlt & p' & Hin & Hp & Hid)]);
      [discriminate|].
    inversion Hp; subst p'. exists k. auto.
  - destruct H as (Hall & Hk & [[-> _]|(_ & p' & _ & Hp & _)]);
      [exact Hall|discriminate].
  - exact H.
Qed.

End Facts.

End EvalProps.

(** * [xbox_input] of record_episodes_hdf5.py *)

Module RecorderProps.
Import Recorder.

Section Facts.

Variable deg2rad : float -> float.

Local Abbreviation xbox_input := (xbox_input deg2rad).
Local Abbreviation polls := (polls deg2rad).

Lemma polls_app (xs ys : list (inputs * (float * float))) :
  forall g, polls (xs ++ ys) g = (g1 <- polls xs g ;; polls ys g1).
Proof.
  induction xs as [|[inp [now later]] xs IH]; intros g; [reflexivity|].
  cbn [app Recorder.polls]. destruct (xbox_input inp now later g); cbn [bind];
    [apply IH|reflexivity].
Qed.

Lemma polls_without_start (reads : list (inputs * (float * float))) :
  forall g,
    Forall (fun r => start (fst r) = false) reads ->
    exists g',
      polls reads g = Ok g'
      /\ walking g' = walking g
      /\ start_button_timeout g' = start_button_timeout g.
Proof.
  induction reads as [|[inp [now later]] rest IH]; intros g Hall.
  - exists g. repeat split.
  - inversion Hall as [|? ? Hs Hrest]; subst. cbn [fst] in Hs.
    cbn [Recorder.polls]. unfold Recorder.xbox_input. rewrite Hs. cbn [bind].
    match goal with
    | |- context [Recorder.polls deg2rad rest ?g1] =>
        destruct (IH g1 Hrest) as (g' & E & W & T)
    end.
    exists g'. split; [exact E|]. split; [exact W|exact T].
Qed.

(** X19.  [start_button_timeout] is assigned nowhere but inside the branch
    that reads it first.  So as long as the start button is not
    pressed, [xbox_input] returns and [walking] keeps its value; the
    first poll that finds the button pressed raises [NameError]: the
    walk can never be paused from the controller. *)
Theorem start_button_raises (g : globals) :
  start_button_timeout g = None ->
  (forall reads,
      Forall (fun r => start (fst r) = false) reads ->
      exists g',
        polls reads g = Ok g'
        /\ walking g' = walking g
        /\ start_button_timeout g' = None)
  /\ (forall before r after,
        Forall (fun r => start (fst r) = false) before ->
        start (fst r) = true ->
        polls (before ++ r :: after) g = Raise NameError).
Proof.
  intros Hg. split.
  - intros reads Hall.
    destruct (polls_without_start reads g Hall) as (g' & E & W & T).
    exists g'. rewrite T. auto.
  - intros before [inp [now later]] after Hall Hs. cbn [fst] in Hs.
    destruct (polls_without_start before g Hall) as (g' & E & _ & T).
    rewrite polls_app, E. cbn [bind Recorder.polls].
    unfold Recorder.xbox_input. rewrite Hs, T, Hg. reflexivity.
Qed.

End Facts.

Lemma start_button_raises_witness :
  (exists g',
      polls (fun x => x * 0.017453292519943295)
        [(stick false, (10, 10)); (stick false, (11, 11))]
        (at_start (fun x => x * 0.017453292519943295))
      = Ok g'
      /\ walking g' = true)
  /\ polls (fun x => x * 0.017453292519943295)
       [(stick false, (10, 10)); (stick true, (11, 11));
        (stick false, (12, 12))]
       (at_start (fun x => x * 0.017453292519943295))
     = Raise NameError.
Proof.
  destruct (start_button_raises (fun x => x * 0.017453292519943295)
              (at_start (fun x => x * 0.017453292519943295)) eq_refl)
    as [A B].
  split.
  - destruct (A [(stick false, (10, 10)); (stick false, (11, 11))])
      as (g' & E & W & _); [repeat constructor|].
    exists g'. split; [exact E|exact W].
  - apply (B [(stick false, (10, 10))] (stick true, (11, 11))
             [(stick false, (12, 12))]); [repeat constructor|reflexivity].
Defined.

End RecorderProps.
